(** * Derived account balances: [api.derive.balances.all]

    A shallow embedding of the balance derivation of
    [@polkadot/api-derive] (file [balances/all.ts]): the lock resolver
    [calcLocked], the per-instance composer [calcShared], the full
    assembly with the vesting projection [calcBalances], the two query
    adapters [queryOld] and [queryCurrent], and the entry point [all].

    Conventions of the embedding
    - a [BN] (bn.js, arbitrary precision) is a [Z];
    - a thrown exception is [None] in the [option] monad;
    - a JavaScript value that may be [undefined] is an [option];
    - an rxjs [Observable] is represented by its latest emission together
      with the list of upstream subscriptions it opened. *)

From Stdlib Require Import ZArith List String Ascii Bool Lia.
From Stdlib Require Import Init.Byte.
From Stdlib Require Import Sorting.Permutation.
Import ListNotations.

Local Open Scope Z_scope.

(** ** The exception monad *)

Definition bind {A B : Type} (c : option A) (k : A -> option B) : option B :=
  match c with
  | Some a => k a
  | None => None
  end.

Notation "x <- c ;; k" := (bind c (fun x => k))
  (at level 61, c at next level, right associativity).

(** [array.map] with a callback that may throw; elements are visited from
    the left and the callback also receives the index. *)
Fixpoint mapIndexed {A B : Type} (f : A -> nat -> option B) (l : list A)
    (index : nat) : option (list B) :=
  match l with
  | [] => Some []
  | a :: rest =>
      b <- f a index ;;
      bs <- mapIndexed f rest (S index) ;;
      Some (b :: bs)
  end.

(** ** bn.js *)

Module BN.

Definition gt (a b : Z) : bool := a >? b.
Definition sub (a b : Z) : Z := a - b.
Definition add (a b : Z) : Z := a + b.
Definition mul (a b : Z) : Z := a * b.
Definition isZero (a : Z) : bool := a =? 0.

(** [BN.max (left, right)]: [left] when [left.cmp(right) > 0]. *)
Definition max (l r : Z) : Z := if l >? r then l else r.

(** [a.div(b)] truncates; [divmod] asserts that the divisor is not
    zero, so a zero divisor throws. *)
Definition div (a b : Z) : option Z :=
  if isZero b then None else Some (Z.quot a b).

End BN.

(** ** @polkadot/util *)

(** [bnMax (...items)]: asserts at least one item, then reduces with
    [BN.max] starting from the first item. *)
Definition bnMax (items : list Z) : option Z :=
  match items with
  | [] => None
  | first :: _ => Some (fold_left BN.max items first)
  end.

Definition hexDigit (c : ascii) : option N :=
  let n := N_of_ascii c in
  if ((48 <=? n) && (n <=? 57))%N then Some (n - 48)%N
  else if ((97 <=? n) && (n <=? 102))%N then Some (n - 87)%N
  else if ((65 <=? n) && (n <=? 70))%N then Some (n - 55)%N
  else None.

Fixpoint hexBytes (s : string) : option (list byte) :=
  match s with
  | EmptyString => Some []
  | String _ EmptyString => None
  | String a (String b rest) =>
      hi <- hexDigit a ;;
      lo <- hexDigit b ;;
      x <- Byte.of_N (16 * hi + lo) ;;
      bs <- hexBytes rest ;;
      Some (x :: bs)
  end.

(** [hexToU8a] on a [0x]-prefixed string. *)
Definition hexToU8a (s : string) : option (list byte) :=
  match s with
  | String "0" (String "x" digits) => hexBytes digits
  | _ => None
  end.

(** ** Codec values *)

(** The two unsigned integer types the derivation creates through the
    registry: [Balance] is a [u128], [BlockNumber] a [u32]. *)
Inductive IntType := Balance | BlockNumber.

Definition bitLength (t : IntType) : Z :=
  match t with
  | Balance => 128
  | BlockNumber => 32
  end.

Definition UINT_MAX (t : IntType) : Z := 2 ^ bitLength t - 1.

(** [amount.isMax ()] *)
Definition isMax (t : IntType) (v : Z) : bool := v =? UINT_MAX t.

Definition in_range (t : IntType) (v : Z) : Prop := 0 <= v <= UINT_MAX t.

Definition in_rangeb (t : IntType) (v : Z) : bool :=
  (0 <=? v) && (v <=? UINT_MAX t).

Definition AccountId := list byte.

Fixpoint u8aEq (a b : list byte) : bool :=
  match a, b with
  | [], [] => true
  | x :: a', y :: b' => Byte.eqb x y && u8aEq a' b'
  | _, _ => false
  end.

(** [Raw.eq (other)] with [other] a hex string: byte-wise comparison with
    the decoded string. *)
Definition Raw_eq (this : list byte) (other : string) : bool :=
  match hexToU8a other with
  | Some o => u8aEq this o
  | None => false
  end.

(** [Raw.isEmpty]: no byte, or no non-zero byte. *)
Definition isEmpty (this : list byte) : bool :=
  forallb (fun b => Byte.eqb b x00) this.

(** A lock entry.  [BalanceLockTo212] carries [until]; [BalanceLock] has
    no such field, which reads as [undefined] (here [None]).  The
    [reasons] field is never looked at and is left out. *)
Record BalanceLock := {
  id : list byte;
  amount : Z;
  until : option Z
}.

(** [VestingInfo] *)
Record VestingInfo := {
  locked : Z;
  perBlock : Z;
  startingBlock : Z
}.

(** The legacy [VestingSchedule], with [offset] where [VestingInfo] has
    [locked]. *)
Module VestingSchedule.
Record t := {
  offset : Z;
  perBlock : Z;
  startingBlock : Z
}.
End VestingSchedule.

(** What a storage query can deliver. *)
Inductive Codec :=
| CVec (locks : list BalanceLock)
| COptInfo (v : option VestingInfo)
| COptSchedule (v : option VestingSchedule.t).

(** ** Derive types *)

(** [DeriveBalancesAccountData]: the raw balance components of one
    balance-module instance. *)
Record DeriveBalancesAccountData := {
  freeBalance : Z;
  reservedBalance : Z
}.

(** [DeriveBalancesAccount]: the components of the primary instance plus
    the account identity and the components of the other instances. *)
Record DeriveBalancesAccount := {
  accountData : DeriveBalancesAccountData;
  accountId : AccountId;
  accountNonce : Z;
  additional : list DeriveBalancesAccountData
}.

Module AllLocked.
Record t := {
  allLocked : bool;
  lockedBalance : Z;
  lockedBreakdown : list BalanceLock;
  vestingLocked : Z
}.
End AllLocked.

(** [DeriveBalancesAllAccountData] *)
Module Shared.
Record t := {
  data : DeriveBalancesAccountData;
  availableBalance : Z;
  lockedBalance : Z;
  lockedBreakdown : list BalanceLock;
  vestingLocked : Z
}.
End Shared.

(** [DeriveBalancesAllAccountData] as it is built for a secondary
    instance: the raw components come from [...data], which spreads
    nothing when [data] is [undefined], so they may be missing. *)
Module View.
Record t := {
  data : option DeriveBalancesAccountData;
  availableBalance : Z;
  lockedBalance : Z;
  lockedBreakdown : list BalanceLock;
  vestingLocked : Z
}.
End View.

(** [DeriveBalancesAll] *)
Module All.
Record t := {
  shared : Shared.t;
  accountId : AccountId;
  accountNonce : Z;
  additional : list View.t;
  isVesting : bool;
  vestedBalance : Z;
  vestedClaimable : Z;
  vestingEndBlock : Z;
  vestingPerBlock : Z;
  vestingTotal : Z
}.
End All.

Definition ResultBalance : Type :=
  (option VestingInfo * list (option Codec))%type.

Definition Result : Type :=
  (DeriveBalancesAccount * Z * ResultBalance)%type.

(** ** The api *)

(** The storage entries the adapters query. *)
Inductive StorageEntry :=
| customLocks (m : string)    (* api.derive[m].customLocks *)
| queryLocks (m : string)     (* api.query[m].locks *)
| queryVesting                (* api.query.vesting.vesting *)
| balancesVesting.            (* api.query.balances.vesting *)

Definition QueryableStorageMultiArg : Type := (StorageEntry * AccountId)%type.

(** The state of the chain as the node serves it. *)
Record Chain := {
  locksOf : StorageEntry -> AccountId -> list BalanceLock;
  vestingOf : AccountId -> option VestingInfo;
  scheduleOf : AccountId -> option VestingSchedule.t
}.

(** [ApiInterfaceRx], reduced to what the derivation touches.  The
    integer constructor of the registry is not part of this package: it
    is a field here, and [registry_ok] below says what is assumed of it. *)
Record ApiInterfaceRx := {
  createType : IntType -> Z -> option Z;
  getModuleInstances : string -> string -> option (list string);
  specName : string;
  derive_customLocks : string -> bool;
  query_locks : string -> bool;
  query_vesting_vesting : bool;
  query_system_account : bool;
  query_balances_account : bool;
  derive_balances_account : string -> DeriveBalancesAccount;
  derive_chain_bestNumber : Z;
  chain : Chain
}.

(** ** Observables *)

Inductive Call :=
| AccountFeed (address : string)
| BestNumberFeed
| QueryMulti (keys : list QueryableStorageMultiArg).

Definition Observable (A : Type) : Type := (list Call * option A)%type.

Definition of_ {A : Type} (a : A) : Observable A := ([], Some a).

Definition throwError {A : Type} : Observable A := ([], None).

(** [source.pipe (map (f))]; a projection that throws errors the stream. *)
Definition pipe_map {A B : Type} (f : A -> option B) (source : Observable A)
    : Observable B :=
  (fst source, bind (snd source) f).

Definition switchMap {A B : Type} (f : A -> Observable B)
    (source : Observable A) : Observable B :=
  match snd source with
  | Some a => (fst source ++ fst (f a), snd (f a))
  | None => (fst source, None)
  end.

Definition combineLatest {A B C : Type} (oa : Observable A)
    (ob : Observable B) (oc : Observable C) : Observable (A * B * C) :=
  (fst oa ++ fst ob ++ fst oc,
   a <- snd oa ;; b <- snd ob ;; c <- snd oc ;; Some (a, b, c)).

(** Modelled from the spec: the batched storage query
    ([queryStorageBatch], an external collaborator) delivers one raw value
    per key, in the order of the keys. *)
Definition readStorage (c : Chain) (q : QueryableStorageMultiArg) : Codec :=
  match fst q with
  | customLocks _ | queryLocks _ => CVec (locksOf c (fst q) (snd q))
  | queryVesting => COptInfo (vestingOf c (snd q))
  | balancesVesting => COptSchedule (scheduleOf c (snd q))
  end.

Definition queryMulti (api : ApiInterfaceRx)
    (keys : list QueryableStorageMultiArg) : Observable (list Codec) :=
  ([QueryMulti keys], Some (map (readStorage (chain api)) keys)).

Definition derive_balances_account_feed (api : ApiInterfaceRx)
    (address : string) : Observable DeriveBalancesAccount :=
  ([AccountFeed address], Some (derive_balances_account api address)).

Definition derive_chain_bestNumber_feed (api : ApiInterfaceRx)
    : Observable Z :=
  ([BestNumberFeed], Some (derive_chain_bestNumber api)).

(** ** balances/all.ts *)

Definition VESTING_ID : string := "0x76657374696e6720".

(** [Array.isArray (locks)] together with the cast to an array. *)
Definition asArray (locks : option Codec) : option (list BalanceLock) :=
  match locks with
  | Some (CVec l) => Some l
  | _ => None
  end.

(** The filter callback of [calcLocked]:
    [!until || (bestNumber && until.gt (bestNumber))].  [until] and
    [bestNumber] are objects when present, and an object is truthy
    whatever number it holds. *)
Definition stillValid (bestNumber : Z) (l : BalanceLock) : bool :=
  match until l with
  | None => true
  | Some u => BN.gt u bestNumber
  end.

(** [createType ('Balance')] without a value creates the default, zero.
    In [amount && amount.isMax ()] the [amount] is an object and hence
    truthy, so the test is [amount.isMax ()]. *)
Definition calcLocked (api : ApiInterfaceRx) (bestNumber : Z)
    (locks : option Codec) : option AllLocked.t :=
  lockedBalance0 <- createType api Balance 0 ;;
  vestingLocked0 <- createType api Balance 0 ;;
  match asArray locks with
  | Some locks =>
      let lockedBreakdown := filter (stillValid bestNumber) locks in
      let allLocked := existsb (fun l => isMax Balance (amount l)) lockedBreakdown in
      vestingLocked <-
        createType api Balance
          (fold_left (fun result l => BN.add result (amount l))
             (filter (fun l => Raw_eq (id l) VESTING_ID) lockedBreakdown) 0) ;;
      let notAll := filter (fun l => negb (isMax Balance (amount l))) lockedBreakdown in
      lockedBalance <-
        (if (0 <? List.length notAll)%nat
         then m <- bnMax (map amount notAll) ;; createType api Balance m
         else Some lockedBalance0) ;;
      Some {| AllLocked.allLocked := allLocked;
              AllLocked.lockedBalance := lockedBalance;
              AllLocked.lockedBreakdown := lockedBreakdown;
              AllLocked.vestingLocked := vestingLocked |}
  | None =>
      Some {| AllLocked.allLocked := false;
              AllLocked.lockedBalance := lockedBalance0;
              AllLocked.lockedBreakdown := [];
              AllLocked.vestingLocked := vestingLocked0 |}
  end.

Definition calcShared (api : ApiInterfaceRx) (bestNumber : Z)
    (data : DeriveBalancesAccountData) (locks : option Codec)
    : option Shared.t :=
  r <- calcLocked api bestNumber locks ;;
  avail <-
    (if AllLocked.allLocked r
     then createType api Balance 0
     else m <- bnMax [0; BN.sub (freeBalance data) (AllLocked.lockedBalance r)] ;;
          createType api Balance m) ;;
  Some {| Shared.data := data;
          Shared.availableBalance := avail;
          Shared.lockedBalance := AllLocked.lockedBalance r;
          Shared.lockedBreakdown := AllLocked.lockedBreakdown r;
          Shared.vestingLocked := AllLocked.vestingLocked r |}.

Definition withComponents (s : Shared.t) : View.t :=
  {| View.data := Some (Shared.data s);
     View.availableBalance := Shared.availableBalance s;
     View.lockedBalance := Shared.lockedBalance s;
     View.lockedBreakdown := Shared.lockedBreakdown s;
     View.vestingLocked := Shared.vestingLocked s |}.

(** [calcShared] as the [additional] callback calls it, with
    [data.additional[index]] for [data], which is [undefined] past the end
    of the array.  With an [undefined] [data] the spread [...data] adds
    nothing and [data.freeBalance] is read, and throws, only in the
    [else] arm of [allLocked ? 0 : ...]. *)
Definition calcSharedAt (api : ApiInterfaceRx) (bestNumber : Z)
    (data : option DeriveBalancesAccountData) (locks : option Codec)
    : option View.t :=
  match data with
  | Some d => option_map withComponents (calcShared api bestNumber d locks)
  | None =>
      r <- calcLocked api bestNumber locks ;;
      avail <-
        (if AllLocked.allLocked r then createType api Balance 0 else None) ;;
      Some {| View.data := None;
              View.availableBalance := avail;
              View.lockedBalance := AllLocked.lockedBalance r;
              View.lockedBreakdown := AllLocked.lockedBreakdown r;
              View.vestingLocked := AllLocked.vestingLocked r |}
  end.

(** [array[index]]: [undefined] past the end, and an element may itself
    be [undefined]. *)
Definition at_index {A : Type} (l : list (option A)) (index : nat) : option A :=
  match nth_error l index with
  | Some v => v
  | None => None
  end.

(** [createType ('VestingInfo')] without a value: every field at its
    default, zero. *)
Definition emptyVest : VestingInfo :=
  {| locked := 0; perBlock := 0; startingBlock := 0 |}.

Definition calcBalances (api : ApiInterfaceRx) (result : Result)
    : option All.t :=
  let '(data, bestNumber, (vesting, allLocks)) := result in
  shared <- calcShared api bestNumber (accountData data) (at_index allLocks 0) ;;
  let v := match vesting with Some v => v | None => emptyVest end in
  let vestingTotal := locked v in
  let perBlock := perBlock v in
  let startingBlock := startingBlock v in
  let isStarted := BN.gt bestNumber startingBlock in
  let vestedNow :=
    if isStarted then BN.mul perBlock (BN.sub bestNumber startingBlock) else 0 in
  vestedBalance <-
    (if BN.gt vestedNow vestingTotal then Some vestingTotal
     else createType api Balance vestedNow) ;;
  let isVesting := isStarted && negb (BN.isZero (Shared.vestingLocked shared)) in
  additional <-
    mapIndexed
      (fun l index =>
         calcSharedAt api bestNumber (nth_error (additional data) index) l)
      (tl allLocks) 0 ;;
  vestedClaimable <-
    createType api Balance
      (if isVesting
       then BN.sub (Shared.vestingLocked shared) (BN.sub vestingTotal vestedBalance)
       else 0) ;;
  vestingEndBlock <-
    (if isVesting
     then q <- BN.div vestingTotal perBlock ;;
          createType api BlockNumber (BN.add q startingBlock)
     else createType api BlockNumber 0) ;;
  Some {| All.shared := shared;
          All.accountId := accountId data;
          All.accountNonce := accountNonce data;
          All.additional := additional;
          All.isVesting := isVesting;
          All.vestedBalance := vestedBalance;
          All.vestedClaimable := vestedClaimable;
          All.vestingEndBlock := vestingEndBlock;
          All.vestingPerBlock := perBlock;
          All.vestingTotal := vestingTotal |}.

(** old *)
Definition queryOld (api : ApiInterfaceRx) (accountId : AccountId)
    : Observable ResultBalance :=
  pipe_map
    (fun r =>
       match r with
       | [locks; COptSchedule optVesting] =>
           vestingNew <-
             match optVesting with
             | Some s =>
                 l <- createType api Balance (VestingSchedule.offset s) ;;
                 p <- createType api Balance (VestingSchedule.perBlock s) ;;
                 b <- createType api BlockNumber (VestingSchedule.startingBlock s) ;;
                 Some (Some {| locked := l; perBlock := p; startingBlock := b |})
             | None => Some None
             end ;;
           Some (vestingNew, [Some locks])
       | _ => None
       end)
    (queryMulti api
       [(queryLocks "balances", accountId); (balancesVesting, accountId)]).

(** [(api.derive as DeriveCustomLocks)[m]?.customLocks || api.query[m]?.locks] *)
Definition lockCall (api : ApiInterfaceRx) (m : string) : option StorageEntry :=
  if derive_customLocks api m then Some (customLocks m)
  else if query_locks api m then Some (queryLocks m)
  else None.

Definition isNonNullable {A : Type} (nullable : option A) : bool :=
  match nullable with
  | Some _ => true
  | None => false
  end.

(** [calls.filter (isNonNullable)], with the narrowing of the type. *)
Fixpoint filterNonNullable {A : Type} (l : list (option A)) : list A :=
  match l with
  | [] => []
  | Some a :: rest => a :: filterNonNullable rest
  | None :: rest => filterNonNullable rest
  end.

(** [locks[index]] for the counter that starts at [-1]. *)
Definition at_offset (locks : list Codec) (offset : Z) : option Codec :=
  if offset <? 0 then None else nth_error locks (Z.to_nat offset).

(** [lockEmpty.map ((e) => e ? createType ('Vec<BalanceLock>') : locks[++offset])],
    threading the counter from left to right. *)
Fixpoint fillLocks (lockEmpty : list bool) (locks : list Codec) (offset : Z)
    : list (option Codec) :=
  match lockEmpty with
  | [] => []
  | true :: rest => Some (CVec []) :: fillLocks rest locks offset
  | false :: rest =>
      at_offset locks (offset + 1) :: fillLocks rest locks (offset + 1)
  end.

(** current (balances, vesting) *)
Definition queryCurrent (api : ApiInterfaceRx) (accountId : AccountId)
    (balanceInstances : option (list string)) : Observable ResultBalance :=
  let balanceInstances :=
    match balanceInstances with
    | Some l => l
    | None => ["balances"%string]
    end in
  let calls := map (lockCall api) balanceInstances in
  let lockEmpty := map (fun c => negb (isNonNullable c)) calls in
  let queries := map (fun c => (c, accountId)) (filterNonNullable calls) in
  pipe_map
    (fun r =>
       match r with
       | COptInfo opt :: locks => Some (opt, fillLocks lockEmpty locks (-1))
       | _ => None
       end)
    (if query_vesting_vesting api
     then queryMulti api ((queryVesting, accountId) :: queries)
     else if (0 <? List.length queries)%nat
          then pipe_map (fun r => Some (COptInfo None :: r)) (queryMulti api queries)
          else of_ [COptInfo None]).

(** [all].  The memoisation per (instanceId, address) shares one
    computation between subscribers and does not change what is computed. *)
Definition all (instanceId : string) (api : ApiInterfaceRx)
    (address : string) : Observable All.t :=
  let balanceInstances := getModuleInstances api (specName api) "balances" in
  pipe_map (calcBalances api)
    (switchMap
       (fun account =>
          if negb (isEmpty (accountId account))
          then combineLatest
                 (of_ account)
                 (derive_chain_bestNumber_feed api)
                 (if query_system_account api || query_balances_account api
                  then queryCurrent api (accountId account) balanceInstances
                  else queryOld api (accountId account))
          else match createType api BlockNumber 0 with
               | Some zero => of_ (account, zero, (None, []))
               | None => throwError
               end)
       (derive_balances_account_feed api address)).

(** ** Reference notions used in the statements *)

(** What the registry's integer constructor is relied upon for: a value
    that fits the type is stored unchanged.  Nothing is assumed of a
    value that does not fit. *)
Definition registry_ok (api : ApiInterfaceRx) : Prop :=
  forall t v, in_range t v -> createType api t v = Some v.

(** The lock list an input stands for: a missing or non-array input
    stands for no locks. *)
Definition lockList (locks : option Codec) : list BalanceLock :=
  match locks with
  | Some (CVec l) => l
  | _ => []
  end.

(** A lock is active at [height] when it has no [until], or an [until]
    strictly above [height]. *)
Definition active (height : Z) (l : BalanceLock) : Prop :=
  until l = None \/ exists u, until l = Some u /\ height < u.

Definition activeb (height : Z) (l : BalanceLock) : bool :=
  match until l with
  | None => true
  | Some u => height <? u
  end.

(** Activity with a zero [until] read as indefinite. *)
Definition active_or_zero (height : Z) (l : BalanceLock) : Prop :=
  until l = None \/ until l = Some 0 \/ exists u, until l = Some u /\ height < u.

(** The reserved tag, the eight bytes of ["vesting "]. *)
Definition vestingTag : list byte := [x76; x65; x73; x74; x69; x6e; x67; x20].

Definition taggedVesting (l : BalanceLock) : bool :=
  if list_eq_dec Byte.byte_eq_dec (id l) vestingTag then true else false.

Definition sentinel : Z := UINT_MAX Balance.

Definition isSentinel (l : BalanceLock) : bool := amount l =? sentinel.

Definition sumZ (l : list Z) : Z := fold_right Z.add 0 l.

Definition maxZ (l : list Z) : Z := fold_right Z.max 0 l.

Definition activeLocks (height : Z) (locks : list BalanceLock) : list BalanceLock :=
  filter (activeb height) locks.

(** Sum of the amounts of the active locks that carry the vesting tag. *)
Definition vestingSum (height : Z) (locks : list BalanceLock) : Z :=
  sumZ (map amount (filter taggedVesting (activeLocks height locks))).

(** The active locks whose amount is not the sentinel. *)
Definition partialLocks (height : Z) (locks : list BalanceLock) : list BalanceLock :=
  filter (fun l => negb (isSentinel l)) (activeLocks height locks).

(** Lock lists the derivation is defined on: every amount is a [Balance],
    and so is the sum of the active vesting locks. *)
Definition locks_ok (height : Z) (locks : list BalanceLock) : Prop :=
  Forall (fun l => in_range Balance (amount l)) locks /\
  in_range Balance (vestingSum height locks).

Definition ceilDiv (a b : Z) : Z := (a + b - 1) / b.

(** What the lock resolver is expected to return. *)
Definition lockedSpec (height : Z) (locks : list BalanceLock) : AllLocked.t :=
  {| AllLocked.allLocked := existsb isSentinel (activeLocks height locks);
     AllLocked.lockedBalance := maxZ (map amount (partialLocks height locks));
     AllLocked.lockedBreakdown := activeLocks height locks;
     AllLocked.vestingLocked := vestingSum height locks |}.

(** What the per-instance composer is expected to return. *)
Definition sharedSpec (height : Z) (d : DeriveBalancesAccountData)
    (locks : list BalanceLock) : Shared.t :=
  {| Shared.data := d;
     Shared.availableBalance :=
       if existsb isSentinel (activeLocks height locks) then 0
       else Z.max 0 (freeBalance d - maxZ (map amount (partialLocks height locks)));
     Shared.lockedBalance := maxZ (map amount (partialLocks height locks));
     Shared.lockedBreakdown := activeLocks height locks;
     Shared.vestingLocked := vestingSum height locks |}.

Definition locks_okb (height : Z) (locks : list BalanceLock) : bool :=
  forallb (fun l => in_rangeb Balance (amount l)) locks
  && in_rangeb Balance (vestingSum height locks).

(** The schedule the projection works on: the given one, or the empty
    one when there is none. *)
Definition effectiveSchedule (vesting : option VestingInfo) : VestingInfo :=
  match vesting with
  | Some v => v
  | None => emptyVest
  end.

Definition started (v : VestingInfo) (height : Z) : bool :=
  startingBlock v <? height.

(** Unlocked so far: the linear amount, clamped to the total. *)
Definition vestedSpec (v : VestingInfo) (height : Z) : Z :=
  Z.min (if started v height then perBlock v * (height - startingBlock v) else 0)
        (locked v).

(** What the projection needs of a schedule and of the vesting-locked
    amount [vl] to be defined: a total that is a [Balance], a rate that is
    not negative and, while vesting is in progress, a positive rate, a
    claimable amount that is a [Balance] and an end block that is a
    [BlockNumber]. *)
Definition projector_ok (v : VestingInfo) (height vl : Z) : Prop :=
  in_range Balance (locked v) /\
  0 <= perBlock v /\
  (started v height = true -> vl <> 0 ->
   0 < perBlock v /\
   in_range Balance (vl - (locked v - vestedSpec v height)) /\
   in_range BlockNumber (locked v / perBlock v + startingBlock v)).

(** Every secondary lock list has its balance components, and the
    composer is defined on the pair. *)
Definition additional_ok (height : Z) (ls : list (option Codec))
    (ds : list DeriveBalancesAccountData) : Prop :=
  forall i l, nth_error ls i = Some l ->
    exists d, nth_error ds i = Some d /\
              in_range Balance (freeBalance d) /\
              locks_ok height (lockList l).

(** Inputs on which the whole derivation is defined. *)
Definition input_ok (result : Result) : Prop :=
  let '(data, height, (vesting, allLocks)) := result in
  in_range Balance (freeBalance (accountData data)) /\
  locks_ok height (lockList (at_index allLocks 0)) /\
  additional_ok height (tl allLocks) (additional data) /\
  projector_ok (effectiveSchedule vesting) height
    (vestingSum height (lockList (at_index allLocks 0))).

(** A result in which every balance, lock list and vesting field is
    zero, empty or false. *)
Definition zeroValued (r : All.t) : Prop :=
  freeBalance (Shared.data (All.shared r)) = 0 /\
  reservedBalance (Shared.data (All.shared r)) = 0 /\
  Shared.availableBalance (All.shared r) = 0 /\
  Shared.lockedBalance (All.shared r) = 0 /\
  Shared.lockedBreakdown (All.shared r) = [] /\
  Shared.vestingLocked (All.shared r) = 0 /\
  All.additional r = [] /\
  All.isVesting r = false /\
  All.vestedBalance r = 0 /\
  All.vestedClaimable r = 0 /\
  All.vestingEndBlock r = 0 /\
  All.vestingPerBlock r = 0 /\
  All.vestingTotal r = 0.

(** The six vesting fields at rest. *)
Definition vestingAtRest (r : All.t) : Prop :=
  All.isVesting r = false /\
  All.vestedBalance r = 0 /\
  All.vestedClaimable r = 0 /\
  All.vestingEndBlock r = 0 /\
  All.vestingPerBlock r = 0 /\
  All.vestingTotal r = 0.

Definition isQueryMulti (c : Call) : bool :=
  match c with
  | QueryMulti _ => true
  | _ => false
  end.

(** ** Sample data *)

(** A registry whose integer constructor rejects what does not fit. *)
Definition checkedInt (t : IntType) (v : Z) : option Z :=
  if in_rangeb t v then Some v else None.

Definition stakingTag : list byte := [x73; x74; x61; x6b; x69; x6e; x67; x20].

Definition mkLock (tag : list byte) (a : Z) (u : option Z) : BalanceLock :=
  {| id := tag; amount := a; until := u |}.

Definition emptyAccountId : AccountId := repeat x00 32.

Definition aliceId : AccountId := repeat x01 32.

Definition sampleLocks : list BalanceLock :=
  [mkLock stakingTag 50 None; mkLock vestingTag 30 (Some 20)].

(** A lock of the older shape whose [until] holds the number zero. *)
Definition zeroUntilLock : BalanceLock := mkLock stakingTag 100 (Some 0).

(** Two overlapping locks, one lapsed lock, and one lock that freezes the
    whole balance. *)
Definition overlappingLocks : list BalanceLock :=
  [mkLock stakingTag 30 None; mkLock vestingTag 50 (Some 99);
   mkLock stakingTag 70 (Some 4)].

Definition frozenLocks : list BalanceLock :=
  mkLock stakingTag sentinel None :: overlappingLocks.

Definition vestingLocks : list BalanceLock :=
  [mkLock vestingTag 10 None; mkLock vestingTag 5 (Some 99);
   mkLock vestingTag 7 (Some 3); mkLock stakingTag 40 None].

Definition sampleData (free : Z) : DeriveBalancesAccountData :=
  {| freeBalance := free; reservedBalance := 0 |}.

Definition sampleAccount (who : AccountId) (free : Z) : DeriveBalancesAccount :=
  {| accountData := {| freeBalance := free; reservedBalance := 0 |};
     accountId := who;
     accountNonce := 0;
     additional := [] |}.

(** The schedule of the worked examples: 100 units, 10 per block, from
    block 5; and the account under it, with its 100 units under a vesting
    lock. *)
Definition sampleSchedule : VestingInfo :=
  {| locked := 100; perBlock := 10; startingBlock := 5 |}.

Definition unevenSchedule : VestingInfo :=
  {| locked := 95; perBlock := 10; startingBlock := 5 |}.

Definition vestingInput (v : option VestingInfo) (height lockedAmount : Z) : Result :=
  (sampleAccount aliceId 1000, height,
   (v, [Some (CVec [mkLock vestingTag lockedAmount None])])).

Definition sampleChain : Chain :=
  {| locksOf := fun q _ =>
       match q with
       | queryLocks "tokens" => sampleLocks
       | _ => []
       end;
     vestingOf := fun _ => None;
     scheduleOf := fun _ => None |}.

(** A chain of the current shape with three configured balance
    instances, of which only the second has a lock query; no account
    behind any address. *)
Definition sampleApi : ApiInterfaceRx :=
  {| createType := checkedInt;
     getModuleInstances := fun _ _ => Some ["balances"; "tokens"; "assets"]%string;
     specName := "sample";
     derive_customLocks := fun _ => false;
     query_locks := fun m => String.eqb m "tokens";
     query_vesting_vesting := false;
     query_system_account := true;
     query_balances_account := false;
     derive_balances_account := fun _ => sampleAccount emptyAccountId 0;
     derive_chain_bestNumber := 10;
     chain := sampleChain |}.

(** ** codec/VecFixed.ts *)

(** What [VecFixed] uses of its item type and of the helpers it imports:
    the default item [new Type (registry)], the items' own [encodedLength]
    and [toU8a], the tests [isU8a] and [isHex], [compactToU8a],
    [u8aConcat] on two values, and [Vec.decodeVec].  None of them is part
    of this file; all are fields. *)
Record VecEnv (T V : Type) := {
  newType : T;
  entryEncodedLength : T -> nat;
  entryToU8a : T -> list byte;
  isU8a : V -> bool;
  isHex : V -> bool;
  compactToU8a : nat -> V;
  u8aConcat2 : V -> V -> V;
  decodeVec : V -> option (list T)
}.

Arguments newType {T V}.
Arguments entryEncodedLength {T V}.
Arguments entryToU8a {T V}.
Arguments isU8a {T V}.
Arguments isHex {T V}.
Arguments compactToU8a {T V}.
Arguments u8aConcat2 {T V}.
Arguments decodeVec {T V}.

(** [while (values.length < allocLength) values.push (new Type (registry))].
    Every turn adds one item, so [allocLength] turns are enough. *)
Fixpoint pushWhileShort {T : Type} (d : T) (allocLength : nat)
    (values : list T) (turns : nat) : list T :=
  match turns with
  | O => values
  | S turns' =>
      if (List.length values <? allocLength)%nat
      then pushWhileShort d allocLength (values ++ [d]) turns'
      else values
  end.

Definition decodeVecFixed {T V : Type} (env : VecEnv T V) (allocLength : nat)
    (value : V) : option (list T) :=
  values <-
    decodeVec env
      (if isU8a env value || isHex env value
       then u8aConcat2 env (compactToU8a env allocLength) value
       else value) ;;
  let values := pushWhileShort (newType env) allocLength values allocLength in
  if (List.length values =? allocLength)%nat then Some values else None.

(** [VecFixed.encodedLength] *)
Definition VecFixed_encodedLength {T V : Type} (env : VecEnv T V)
    (this : list T) : nat :=
  fold_left (fun total entry => (total + entryEncodedLength env entry)%nat) this 0%nat.

(** [u8aConcat (...encoded)] *)
Definition u8aConcat (list_ : list (list byte)) : list byte := List.concat list_.

(** [VecFixed.toU8a] *)
Definition VecFixed_toU8a {T V : Type} (env : VecEnv T V) (this : list T)
    : list byte :=
  let encoded := map (entryToU8a env) this in
  if (0 <? List.length encoded)%nat then u8aConcat encoded else [].

(** ** Further reference notions *)



(** The lock queries of the configured instances that resolve, in the
    order of the instances: the custom query where there is one, the
    module's own query otherwise. *)
Definition resolvedQueries (api : ApiInterfaceRx) (who : AccountId)
    (instances : list string) : list QueryableStorageMultiArg :=
  flat_map (fun m =>
              if derive_customLocks api m then [(customLocks m, who)]
              else if query_locks api m then [(queryLocks m, who)]
              else []) instances.

Definition instancesOf (api : ApiInterfaceRx) : list string :=
  match getModuleInstances api (specName api) "balances" with
  | Some l => l
  | None => ["balances"%string]
  end.

(** A one-byte item type for [VecFixed], with a list of items as the
    value to decode. *)
Definition byteVecEnv : VecEnv byte (list byte) :=
  {| newType := x00;
     entryEncodedLength := fun _ => 1%nat;
     entryToU8a := fun b => [b];
     isU8a := fun _ => false;
     isHex := fun _ => false;
     compactToU8a := fun _ => [];
     u8aConcat2 := fun a b => a ++ b;
     decodeVec := fun v => Some v |}.




(** A chain of the current shape with a vesting module, two configured
    instances, a custom lock query for the second, and an account with
    components for both. *)
Definition twoInstanceAccount : DeriveBalancesAccount :=
  {| accountData := sampleData 1000;
     accountId := aliceId;
     accountNonce := 3;
     additional := [sampleData 500] |}.

Definition currentChain : Chain :=
  {| locksOf := fun q _ =>
       match q with
       | queryLocks "balances" => [mkLock vestingTag 100 None]
       | customLocks "tokens" => [mkLock stakingTag 200 None]
       | _ => []
       end;
     vestingOf := fun _ => Some sampleSchedule;
     scheduleOf := fun _ => None |}.

Definition currentApi : ApiInterfaceRx :=
  {| createType := checkedInt;
     getModuleInstances := fun _ _ => Some ["balances"; "tokens"]%string;
     specName := "current";
     derive_customLocks := fun m => String.eqb m "tokens";
     query_locks := fun _ => true;
     query_vesting_vesting := true;
     query_system_account := true;
     query_balances_account := false;
     derive_balances_account := fun _ => twoInstanceAccount;
     derive_chain_bestNumber := 8;
     chain := currentChain |}.

(** The derivation input for [twoInstanceAccount]: the schedule of the
    worked examples and one lock list per instance. *)
Definition twoInstanceLocks : list (option Codec) :=
  [Some (CVec [mkLock vestingTag 100 None]);
   Some (CVec [mkLock stakingTag 200 None])].

(** A secondary lock list that freezes the whole balance. *)
Definition frozenSecondLocks : list (option Codec) :=
  [Some (CVec [mkLock vestingTag 100 None]);
   Some (CVec [mkLock stakingTag sentinel None])].

Definition zeroRateSchedule : VestingInfo :=
  {| locked := 100; perBlock := 0; startingBlock := 5 |}.

(** The subscriptions the adapter for the current shape opens: one batch
    with the vesting query, when the chain has one, followed by the
    resolved lock queries; no batch at all when there is nothing to
    query. *)
Definition currentBatch (api : ApiInterfaceRx) (who : AccountId)
    (instances : list string) : list Call :=
  if query_vesting_vesting api
  then [QueryMulti ((queryVesting, who) :: resolvedQueries api who instances)]
  else match resolvedQueries api who instances with
       | [] => []
       | qs => [QueryMulti qs]
       end.

(** The lock list of one configured instance as the chain holds it. *)
Definition instanceLocks (api : ApiInterfaceRx) (who : AccountId) (m : string)
    : list BalanceLock :=
  if derive_customLocks api m then locksOf (chain api) (customLocks m) who
  else if query_locks api m then locksOf (chain api) (queryLocks m) who
  else [].

(** The normalized result of the adapter for the current shape. *)
Definition currentResult (api : ApiInterfaceRx) (who : AccountId)
    (instances : list string) : ResultBalance :=
  (if query_vesting_vesting api then vestingOf (chain api) who else None,
   map (fun m => Some (CVec (instanceLocks api who m))) instances).



(** * Properties *)

(** ** Arithmetic and byte lemmas *)

Lemma registry_ok_sampleApi : registry_ok sampleApi.
Proof.
  intros t v [Hlo Hhi]. cbn [createType sampleApi]. unfold checkedInt, in_rangeb.
  apply Z.leb_le in Hlo. apply Z.leb_le in Hhi. now rewrite Hlo, Hhi.
Qed.

Lemma in_range_zero (t : IntType) : in_range t 0.
Proof. destruct t; unfold in_range, UINT_MAX; cbn; lia. Qed.

Lemma BN_max_spec (a b : Z) : BN.max a b = Z.max a b.
Proof. unfold BN.max. rewrite Z.gtb_ltb. destruct (Z.ltb_spec b a); lia. Qed.

Lemma maxZ_cons (x : Z) (l : list Z) : maxZ (x :: l) = Z.max x (maxZ l).
Proof. reflexivity. Qed.

Lemma sumZ_cons (x : Z) (l : list Z) : sumZ (x :: l) = x + sumZ l.
Proof. reflexivity. Qed.

Lemma fold_left_BN_max (l : list Z) (a : Z) :
  0 <= a -> fold_left BN.max l a = Z.max a (maxZ l).
Proof.
  revert a. induction l as [|x l IH]; intros a Ha.
  - cbv [fold_left maxZ fold_right]. lia.
  - rewrite maxZ_cons. cbn [fold_left].
    rewrite IH by (rewrite BN_max_spec; lia).
    rewrite BN_max_spec. lia.
Qed.

Lemma maxZ_nonneg (l : list Z) : 0 <= maxZ l.
Proof.
  induction l as [|x l IH]; [cbv; discriminate|]. rewrite maxZ_cons. lia.
Qed.

Lemma maxZ_upper (l : list Z) (x : Z) : In x l -> x <= maxZ l.
Proof.
  induction l as [|y l IH]; [easy|]. rewrite maxZ_cons.
  intros [->|H]; [lia|]. specialize (IH H). lia.
Qed.

Lemma maxZ_attained (l : list Z) :
  l <> [] -> Forall (fun x => 0 <= x) l -> In (maxZ l) l.
Proof.
  induction l as [|y l IH]; [easy|]. intros _ Hall. inversion Hall; subst.
  rewrite maxZ_cons. destruct l as [|z l'].
  - left. change (maxZ []) with 0. lia.
  - destruct (Z.max_spec y (maxZ (z :: l'))) as [[_ E]|[_ E]]; rewrite E.
    + right. apply IH; [discriminate|assumption].
    + now left.
Qed.

Lemma maxZ_in_range (t : IntType) (l : list Z) :
  Forall (in_range t) l -> in_range t (maxZ l).
Proof.
  induction 1 as [|x l Hx _ IH].
  - apply in_range_zero.
  - rewrite maxZ_cons. unfold in_range in *. lia.
Qed.

Lemma bnMax_maxZ (l : list Z) :
  l <> [] -> Forall (fun x => 0 <= x) l -> bnMax l = Some (maxZ l).
Proof.
  destruct l as [|x l]; [easy|]. intros _ Hall. inversion Hall; subst.
  unfold bnMax. f_equal. rewrite fold_left_BN_max by assumption.
  rewrite maxZ_cons. pose proof (maxZ_nonneg l). lia.
Qed.

Lemma fold_left_add_amount (l : list BalanceLock) (acc : Z) :
  fold_left (fun result x => BN.add result (amount x)) l acc
  = acc + sumZ (map amount l).
Proof.
  revert acc. induction l as [|x l IH]; intros acc; cbn [fold_left map].
  - cbv [sumZ fold_right]. lia.
  - rewrite IH, sumZ_cons. unfold BN.add. lia.
Qed.

Lemma u8aEq_eq (a b : list byte) : u8aEq a b = true <-> a = b.
Proof.
  revert b. induction a as [|x a IH]; intros [|y b]; cbn; try easy.
  rewrite andb_true_iff, IH. split.
  - intros [Hxy ->]. f_equal. now apply Byte.byte_dec_bl.
  - intros E. injection E as -> ->. split; [|reflexivity].
    now apply Byte.byte_dec_lb.
Qed.

Lemma hexToU8a_VESTING_ID : hexToU8a VESTING_ID = Some vestingTag.
Proof. reflexivity. Qed.

Lemma Raw_eq_VESTING_ID (l : BalanceLock) :
  Raw_eq (id l) VESTING_ID = taggedVesting l.
Proof.
  unfold Raw_eq, taggedVesting. rewrite hexToU8a_VESTING_ID.
  destruct (list_eq_dec Byte.byte_eq_dec (id l) vestingTag) as [E|N].
  - now apply u8aEq_eq.
  - destruct (u8aEq (id l) vestingTag) eqn:E; [|reflexivity].
    apply u8aEq_eq in E. contradiction.
Qed.

Lemma taggedVesting_iff (l : BalanceLock) :
  taggedVesting l = true <-> id l = vestingTag.
Proof.
  unfold taggedVesting.
  destruct (list_eq_dec Byte.byte_eq_dec (id l) vestingTag); split; easy.
Qed.

Lemma stillValid_activeb (h : Z) (l : BalanceLock) :
  stillValid h l = activeb h l.
Proof.
  unfold stillValid, activeb, BN.gt. destruct (until l); [|reflexivity].
  apply Z.gtb_ltb.
Qed.

Lemma activeb_active (h : Z) (l : BalanceLock) :
  activeb h l = true <-> active h l.
Proof.
  unfold activeb, active. destruct (until l) as [u|].
  - rewrite Z.ltb_lt. split.
    + intros H. right. now exists u.
    + intros [H|[u' [E H]]]; [discriminate|]. now injection E as ->.
  - split; [now left|reflexivity].
Qed.

(** ** The lock resolver *)

Lemma Forall_filter_keep {A : Type} (P : A -> Prop) (f : A -> bool) (l : list A) :
  Forall P l -> Forall P (filter f l).
Proof. apply incl_Forall, incl_filter. Qed.

Lemma filter_none {A : Type} (f : A -> bool) (l : list A) :
  (forall x, In x l -> f x = false) -> filter f l = [].
Proof.
  induction l as [|x l IH]; intros H; [reflexivity|]. cbn [filter].
  rewrite (H x (or_introl eq_refl)). apply IH. intros y Hy. apply H. now right.
Qed.

Lemma locks_ok_nil (h : Z) : locks_ok h [].
Proof. split; [constructor|apply (in_range_zero Balance)]. Qed.

(** On every lock input the registry can represent, [calcLocked] returns
    and its four fields are the reference ones. *)
Lemma calcLocked_spec (api : ApiInterfaceRx) (h : Z) (locks : option Codec) :
  registry_ok api ->
  locks_ok h (lockList locks) ->
  calcLocked api h locks = Some (lockedSpec h (lockList locks)).
Proof.
  intros Hreg [Hamt Hsum]. unfold calcLocked.
  rewrite (Hreg Balance 0 (in_range_zero Balance)). cbn [bind].
  destruct (asArray locks) as [l|] eqn:Earr.
  - assert (lockList locks = l) as El
      by (destruct locks as [[]|]; cbn in Earr |- *; congruence).
    rewrite El in *. clear Earr El locks.
    rewrite (filter_ext _ _ (stillValid_activeb h) l).
    fold (activeLocks h l).
    rewrite (filter_ext _ _ Raw_eq_VESTING_ID (activeLocks h l)).
    rewrite fold_left_add_amount, Z.add_0_l.
    fold (vestingSum h l). rewrite (Hreg Balance _ Hsum). cbn [bind].
    change (filter (fun x => negb (isMax Balance (amount x))) (activeLocks h l))
      with (partialLocks h l).
    assert (Hpart : Forall (in_range Balance) (map amount (partialLocks h l))).
    { unfold partialLocks, activeLocks. apply Forall_map.
      do 2 apply Forall_filter_keep. exact Hamt. }
    unfold lockedSpec.
    destruct (partialLocks h l) as [|x rest] eqn:Epart.
    + reflexivity.
    + cbn [List.length Nat.ltb Nat.leb].
      rewrite bnMax_maxZ.
      * cbn [bind]. rewrite (Hreg Balance _ (maxZ_in_range _ _ Hpart)).
        reflexivity.
      * discriminate.
      * eapply Forall_impl; [|exact Hpart]. intros a Ha. apply Ha.
  - assert (lockList locks = []) as El
      by (destruct locks as [[]|]; cbn in Earr |- *; congruence).
    rewrite El. reflexivity.
Qed.

Lemma in_rangeb_in_range (t : IntType) (v : Z) :
  in_rangeb t v = true <-> in_range t v.
Proof.
  unfold in_rangeb, in_range. rewrite andb_true_iff, !Z.leb_le. reflexivity.
Qed.

Lemma locks_okb_ok (h : Z) (locks : list BalanceLock) :
  locks_okb h locks = true -> locks_ok h locks.
Proof.
  unfold locks_okb, locks_ok. rewrite andb_true_iff, forallb_forall, Forall_forall.
  intros [Hall Hsum]. split.
  - intros l Hl. apply in_rangeb_in_range. now apply Hall.
  - now apply in_rangeb_in_range.
Qed.

Lemma activeLocks_In (h : Z) (locks : list BalanceLock) (l : BalanceLock) :
  In l (activeLocks h locks) <-> In l locks /\ active h l.
Proof.
  unfold activeLocks. rewrite filter_In, activeb_active. reflexivity.
Qed.

Lemma isSentinel_iff (l : BalanceLock) :
  isSentinel l = true <-> amount l = sentinel.
Proof. unfold isSentinel. apply Z.eqb_eq. Qed.

Lemma partialLocks_In (h : Z) (locks : list BalanceLock) (l : BalanceLock) :
  In l (partialLocks h locks) <->
  In l locks /\ active h l /\ amount l <> sentinel.
Proof.
  unfold partialLocks. rewrite filter_In, activeLocks_In, negb_true_iff.
  rewrite <- not_true_iff_false, isSentinel_iff. tauto.
Qed.

Lemma frozen_iff (h : Z) (locks : list BalanceLock) :
  existsb isSentinel (activeLocks h locks) = true <->
  exists l, In l locks /\ active h l /\ amount l = sentinel.
Proof.
  rewrite existsb_exists. split; intros [l H]; exists l.
  - rewrite activeLocks_In, isSentinel_iff in H. tauto.
  - rewrite activeLocks_In, isSentinel_iff. tauto.
Qed.

Lemma lockedBalance_in_range (h : Z) (locks : list BalanceLock) :
  locks_ok h locks ->
  in_range Balance (maxZ (map amount (partialLocks h locks))).
Proof.
  intros [Hamt _]. apply maxZ_in_range. unfold partialLocks, activeLocks.
  apply Forall_map. do 2 apply Forall_filter_keep. exact Hamt.
Qed.

(** ** The per-instance composer *)

Lemma calcShared_spec (api : ApiInterfaceRx) (h : Z)
    (d : DeriveBalancesAccountData) (locks : option Codec) :
  registry_ok api ->
  in_range Balance (freeBalance d) ->
  locks_ok h (lockList locks) ->
  calcShared api h d locks = Some (sharedSpec h d (lockList locks)).
Proof.
  intros Hreg Hfree Hlocks. unfold calcShared.
  rewrite (calcLocked_spec api h locks Hreg Hlocks). cbn [bind].
  unfold lockedSpec, sharedSpec.
  cbn [AllLocked.allLocked AllLocked.lockedBalance AllLocked.lockedBreakdown
       AllLocked.vestingLocked].
  pose proof (lockedBalance_in_range h _ Hlocks) as [Hlo _].
  destruct (existsb isSentinel (activeLocks h (lockList locks))).
  - rewrite (Hreg Balance 0 (in_range_zero Balance)). reflexivity.
  - unfold bnMax. cbn [fold_left bind]. rewrite !BN_max_spec. unfold BN.sub.
    rewrite Z.max_id. rewrite Hreg; [reflexivity|].
    unfold in_range in *. lia.
Qed.

(** C1, as amended.  For every block height and every lock list on which
    the resolver is defined, [lockedBreakdown] is the sub-list, in order,
    of the entries whose [until] is absent or strictly greater than the
    height.  An [until] that is present is compared as a number, so an
    entry whose [until] is zero is dropped like any other entry with
    [until <= height]. *)
Theorem calcLocked_lockedBreakdown (api : ApiInterfaceRx) (h : Z)
    (locks : list BalanceLock) :
  registry_ok api ->
  locks_ok h locks ->
  exists r,
    calcLocked api h (Some (CVec locks)) = Some r /\
    AllLocked.lockedBreakdown r = filter (activeb h) locks /\
    (forall l, In l (AllLocked.lockedBreakdown r) <-> In l locks /\ active h l) /\
    (forall l u, until l = Some u -> u <= h -> ~ In l (AllLocked.lockedBreakdown r)).
Proof.
  intros Hreg Hok. exists (lockedSpec h locks). split.
  - exact (calcLocked_spec api h (Some (CVec locks)) Hreg Hok).
  - cbn [lockedSpec AllLocked.lockedBreakdown]. split; [reflexivity|]. split.
    + intros l. apply activeLocks_In.
    + intros l u Hu Hle Hin. apply activeLocks_In in Hin.
      destruct Hin as [_ [Hn|[u' [Hu' Hlt]]]]; rewrite Hu in *;
        [discriminate|]. injection Hu' as <-. lia.
Qed.

Lemma calcLocked_lockedBreakdown_witness :
  exists r,
    calcLocked sampleApi 10 (Some (CVec overlappingLocks)) = Some r /\
    AllLocked.lockedBreakdown r = filter (activeb 10) overlappingLocks /\
    (forall l, In l (AllLocked.lockedBreakdown r) <->
               In l overlappingLocks /\ active 10 l) /\
    (forall l u, until l = Some u -> u <= 10 ->
                 ~ In l (AllLocked.lockedBreakdown r)).
Proof.
  apply (calcLocked_lockedBreakdown sampleApi 10 overlappingLocks).
  - exact registry_ok_sampleApi.
  - apply locks_okb_ok. vm_compute. reflexivity.
Defined.

(** C1 as first stated does not hold: at height 10 a lock whose [until]
    is zero is not in [lockedBreakdown], although a zero [until] read as
    indefinite would keep it. *)
Lemma calcLocked_until_zero_dropped :
  ~ (forall (api : ApiInterfaceRx) (h : Z) (locks : list BalanceLock)
            (r : AllLocked.t) (l : BalanceLock),
        registry_ok api ->
        locks_ok h locks ->
        calcLocked api h (Some (CVec locks)) = Some r ->
        (In l (AllLocked.lockedBreakdown r) <->
         In l locks /\ active_or_zero h l)).
Proof.
  intros H.
  specialize (H sampleApi 10 [zeroUntilLock] (lockedSpec 10 [zeroUntilLock])
                zeroUntilLock registry_ok_sampleApi).
  assert (Hok : locks_ok 10 [zeroUntilLock])
    by (apply locks_okb_ok; vm_compute; reflexivity).
  specialize (H Hok (calcLocked_spec sampleApi 10 (Some (CVec [zeroUntilLock]))
                       registry_ok_sampleApi Hok)).
  destruct H as [_ H]. apply H. split.
  - now left.
  - right. now left.
Qed.

(** At height 10 the lock with a zero [until] is not part of the
    breakdown. *)
Example calcLocked_until_zero :
  option_map AllLocked.lockedBreakdown
    (calcLocked sampleApi 10 (Some (CVec [zeroUntilLock]))) = Some [].
Proof. vm_compute. reflexivity. Qed.

(** C4.  For every block height, every balance-components value and
    every lock input on which the composer is defined: if some active lock
    has the sentinel maximum as its amount then [availableBalance] is 0
    whatever [freeBalance] is; otherwise [availableBalance] is
    [max (0, freeBalance - lockedBalance)], where [lockedBalance] is the
    lock resolver's for the same height and locks, the largest amount
    among the active locks that are not the sentinel. *)
Theorem calcShared_availableBalance (api : ApiInterfaceRx) (h : Z)
    (d : DeriveBalancesAccountData) (locks : option Codec) :
  registry_ok api ->
  in_range Balance (freeBalance d) ->
  locks_ok h (lockList locks) ->
  exists r a,
    calcShared api h d locks = Some r /\
    calcLocked api h locks = Some a /\
    Shared.lockedBalance r = AllLocked.lockedBalance a /\
    Shared.lockedBalance r = maxZ (map amount (partialLocks h (lockList locks))) /\
    ((exists l, In l (lockList locks) /\ active h l /\ amount l = sentinel) ->
     Shared.availableBalance r = 0) /\
    (~ (exists l, In l (lockList locks) /\ active h l /\ amount l = sentinel) ->
     Shared.availableBalance r = Z.max 0 (freeBalance d - Shared.lockedBalance r) /\
     Shared.availableBalance r
     = Z.max 0 (freeBalance d - maxZ (map amount (partialLocks h (lockList locks))))).
Proof.
  intros Hreg Hfree Hok.
  exists (sharedSpec h d (lockList locks)), (lockedSpec h (lockList locks)).
  split; [now apply calcShared_spec|]. split; [now apply calcLocked_spec|].
  cbn [sharedSpec lockedSpec Shared.availableBalance Shared.lockedBalance
       AllLocked.lockedBalance].
  split; [reflexivity|]. split; [reflexivity|].
  destruct (existsb isSentinel (activeLocks h (lockList locks))) eqn:E.
  - split; [reflexivity|]. intros Hno. exfalso. apply Hno.
    now apply frozen_iff.
  - split; [|now split]. intros Hex. apply frozen_iff in Hex. congruence.
Qed.

Lemma calcShared_availableBalance_witness :
  (exists r,
     calcShared sampleApi 10 (sampleData 1000) (Some (CVec frozenLocks)) = Some r /\
     Shared.availableBalance r = 0) /\
  (exists r,
     calcShared sampleApi 10 (sampleData 60) (Some (CVec overlappingLocks)) = Some r /\
     Shared.lockedBalance r = 50 /\
     Shared.availableBalance r = 10) /\
  (exists r,
     calcShared sampleApi 10 (sampleData 1000) None = Some r /\
     Shared.lockedBalance r = 0 /\
     Shared.availableBalance r = 1000).
Proof.
  split; [|split].
  - destruct (calcShared_availableBalance sampleApi 10 (sampleData 1000)
                (Some (CVec frozenLocks)))
      as (r & a & Hr & _ & _ & _ & Hfrozen & _).
    + exact registry_ok_sampleApi.
    + apply in_rangeb_in_range. vm_compute. reflexivity.
    + apply locks_okb_ok. vm_compute. reflexivity.
    + exists r. split; [exact Hr|]. apply Hfrozen.
      exists (mkLock stakingTag sentinel None).
      split; [now left|]. split; [now left|reflexivity].
  - destruct (calcShared_availableBalance sampleApi 10 (sampleData 60)
                (Some (CVec overlappingLocks)))
      as (r & a & Hr & _ & _ & Hmax & _ & Hfree).
    + exact registry_ok_sampleApi.
    + apply in_rangeb_in_range. vm_compute. reflexivity.
    + apply locks_okb_ok. vm_compute. reflexivity.
    + exists r. split; [exact Hr|]. split; [rewrite Hmax; reflexivity|].
      destruct Hfree as [_ Hav]; [|rewrite Hav; reflexivity].
      intros (l & Hin & _ & Hamt).
      repeat (destruct Hin as [<-|Hin]; [vm_compute in Hamt; discriminate|]).
      destruct Hin.
  - destruct (calcShared_availableBalance sampleApi 10 (sampleData 1000) None)
      as (r & a & Hr & _ & _ & Hmax & _ & Hfree).
    + exact registry_ok_sampleApi.
    + apply in_rangeb_in_range. vm_compute. reflexivity.
    + apply locks_ok_nil.
    + exists r. split; [exact Hr|]. split; [rewrite Hmax; reflexivity|].
      destruct Hfree as [_ Hav]; [|rewrite Hav; reflexivity].
      intros (l & Hin & _). destruct Hin.
Defined.

(** C5.  For every block height and every lock input on which the
    resolver is defined, [lockedBalance] is the largest single amount among
    the active entries whose amount is not the sentinel maximum: it is the
    amount of one of them and no other such amount exceeds it; it is 0
    when there is no such entry. *)
Theorem calcLocked_lockedBalance (api : ApiInterfaceRx) (h : Z)
    (locks : option Codec) :
  registry_ok api ->
  locks_ok h (lockList locks) ->
  exists r,
    calcLocked api h locks = Some r /\
    (forall l, In l (lockList locks) -> active h l -> amount l <> sentinel ->
               amount l <= AllLocked.lockedBalance r) /\
    ((exists l, In l (lockList locks) /\ active h l /\ amount l <> sentinel) ->
     exists l, In l (lockList locks) /\ active h l /\ amount l <> sentinel /\
               AllLocked.lockedBalance r = amount l) /\
    (~ (exists l, In l (lockList locks) /\ active h l /\ amount l <> sentinel) ->
     AllLocked.lockedBalance r = 0).
Proof.
  intros Hreg Hok. exists (lockedSpec h (lockList locks)). split.
  - now apply calcLocked_spec.
  - cbn [lockedSpec AllLocked.lockedBalance]. split; [|split].
    + intros l Hin Hact Hne. apply maxZ_upper, in_map.
      apply partialLocks_In. tauto.
    + intros [l0 Hl0].
      assert (Hne : map amount (partialLocks h (lockList locks)) <> []).
      { intros E. apply (f_equal (@List.length Z)) in E.
        rewrite length_map in E. apply length_zero_iff_nil in E.
        apply partialLocks_In in Hl0. rewrite E in Hl0. exact Hl0. }
      assert (Hpos : Forall (fun x => 0 <= x)
                       (map amount (partialLocks h (lockList locks)))).
      { destruct Hok as [Hamt _]. apply Forall_map.
        unfold partialLocks, activeLocks. do 2 apply Forall_filter_keep.
        eapply Forall_impl; [|exact Hamt]. intros a Ha. apply Ha. }
      pose proof (maxZ_attained _ Hne Hpos) as Hin.
      apply in_map_iff in Hin. destruct Hin as [l [El Hl]].
      exists l. apply partialLocks_In in Hl. intuition congruence.
    + intros Hno.
      destruct (partialLocks h (lockList locks)) as [|l rest] eqn:E;
        [reflexivity|].
      exfalso. apply Hno. exists l. apply partialLocks_In. rewrite E. now left.
Qed.

Lemma calcLocked_lockedBalance_witness :
  exists r,
    calcLocked sampleApi 10 (Some (CVec frozenLocks)) = Some r /\
    (forall l, In l frozenLocks -> active 10 l -> amount l <> sentinel ->
               amount l <= AllLocked.lockedBalance r) /\
    ((exists l, In l frozenLocks /\ active 10 l /\ amount l <> sentinel) ->
     exists l, In l frozenLocks /\ active 10 l /\ amount l <> sentinel /\
               AllLocked.lockedBalance r = amount l) /\
    (~ (exists l, In l frozenLocks /\ active 10 l /\ amount l <> sentinel) ->
     AllLocked.lockedBalance r = 0).
Proof.
  apply (calcLocked_lockedBalance sampleApi 10 (Some (CVec frozenLocks))).
  - exact registry_ok_sampleApi.
  - apply locks_okb_ok. vm_compute. reflexivity.
Defined.

(** The maximum and not the sum: active amounts 30 and 50 (and a lapsed
    70) give 50. *)
Example calcLocked_overlapping :
  option_map AllLocked.lockedBalance
    (calcLocked sampleApi 10 (Some (CVec overlappingLocks))) = Some 50.
Proof. vm_compute. reflexivity. Qed.

(** C8.  For every block height and every lock input on which the
    resolver is defined, [vestingLocked] is the sum of the amounts of the
    active entries whose id is the eight bytes of the vesting tag, and 0
    when no active entry carries the tag. *)
Theorem calcLocked_vestingLocked (api : ApiInterfaceRx) (h : Z)
    (locks : option Codec) :
  registry_ok api ->
  locks_ok h (lockList locks) ->
  exists r,
    calcLocked api h locks = Some r /\
    AllLocked.vestingLocked r =
      sumZ (map amount
              (filter (fun l => if list_eq_dec Byte.byte_eq_dec (id l) vestingTag
                                then true else false)
                 (filter (activeb h) (lockList locks)))) /\
    ((forall l, In l (lockList locks) -> active h l -> id l <> vestingTag) ->
     AllLocked.vestingLocked r = 0).
Proof.
  intros Hreg Hok. exists (lockedSpec h (lockList locks)). split.
  - now apply calcLocked_spec.
  - cbn [lockedSpec AllLocked.vestingLocked]. split; [reflexivity|].
    intros Hnone. unfold vestingSum. rewrite filter_none; [reflexivity|].
    intros l Hl. apply activeLocks_In in Hl. apply not_true_iff_false.
    rewrite taggedVesting_iff. now apply Hnone.
Qed.

Lemma calcLocked_vestingLocked_witness :
  exists r,
    calcLocked sampleApi 10 (Some (CVec vestingLocks)) = Some r /\
    AllLocked.vestingLocked r =
      sumZ (map amount
              (filter (fun l => if list_eq_dec Byte.byte_eq_dec (id l) vestingTag
                                then true else false)
                 (filter (activeb 10) vestingLocks))) /\
    ((forall l, In l vestingLocks -> active 10 l -> id l <> vestingTag) ->
     AllLocked.vestingLocked r = 0).
Proof.
  apply (calcLocked_vestingLocked sampleApi 10 (Some (CVec vestingLocks))).
  - exact registry_ok_sampleApi.
  - apply locks_okb_ok. vm_compute. reflexivity.
Defined.

(** Active vesting locks of 10 and 5, a lapsed vesting lock of 7 and a
    staking lock of 40 give 15. *)
Example calcLocked_vesting_sum :
  option_map AllLocked.vestingLocked
    (calcLocked sampleApi 10 (Some (CVec vestingLocks))) = Some 15.
Proof. vm_compute. reflexivity. Qed.

(** C10.  For every block height, every balance-components value with a
    non-negative [freeBalance] and every lock input, missing and non-array
    inputs included, the composer's [availableBalance] lies between 0 and
    [freeBalance]. *)
Theorem calcShared_availableBalance_bounds (api : ApiInterfaceRx) (h : Z)
    (d : DeriveBalancesAccountData) (locks : option Codec) :
  registry_ok api ->
  in_range Balance (freeBalance d) ->
  locks_ok h (lockList locks) ->
  exists r,
    calcShared api h d locks = Some r /\
    0 <= Shared.availableBalance r <= freeBalance d.
Proof.
  intros Hreg Hfree Hok. exists (sharedSpec h d (lockList locks)). split.
  - now apply calcShared_spec.
  - cbn [sharedSpec Shared.availableBalance].
    pose proof (lockedBalance_in_range h _ Hok) as [Hlo _].
    destruct Hfree as [Hf _].
    destruct (existsb isSentinel (activeLocks h (lockList locks))); lia.
Qed.

Lemma calcShared_availableBalance_bounds_witness :
  (exists r,
     calcShared sampleApi 10 (sampleData 60) (Some (CVec overlappingLocks)) = Some r /\
     0 <= Shared.availableBalance r <= 60) /\
  (exists r,
     calcShared sampleApi 10 (sampleData 60) None = Some r /\
     0 <= Shared.availableBalance r <= 60) /\
  (exists r,
     calcShared sampleApi 10 (sampleData 60) (Some (COptInfo None)) = Some r /\
     0 <= Shared.availableBalance r <= 60).
Proof.
  repeat split.
  - apply (calcShared_availableBalance_bounds sampleApi 10 (sampleData 60)
             (Some (CVec overlappingLocks))).
    + exact registry_ok_sampleApi.
    + apply in_rangeb_in_range. vm_compute. reflexivity.
    + apply locks_okb_ok. vm_compute. reflexivity.
  - apply (calcShared_availableBalance_bounds sampleApi 10 (sampleData 60) None).
    + exact registry_ok_sampleApi.
    + apply in_rangeb_in_range. vm_compute. reflexivity.
    + apply locks_ok_nil.
  - apply (calcShared_availableBalance_bounds sampleApi 10 (sampleData 60)
             (Some (COptInfo None))).
    + exact registry_ok_sampleApi.
    + apply in_rangeb_in_range. vm_compute. reflexivity.
    + apply locks_ok_nil.
Defined.

(** ** The adapter for the current chain shape *)

(** The lock list the adapter is expected to put at the position of one
    configured instance. *)
Lemma lockCall_reads_locks (api : ApiInterfaceRx) (m : string)
    (q : StorageEntry) (who : AccountId) :
  lockCall api m = Some q ->
  readStorage (chain api) (q, who) = CVec (locksOf (chain api) q who).
Proof.
  unfold lockCall.
  destruct (derive_customLocks api m); [|destruct (query_locks api m)];
    intros E; inversion E; reflexivity.
Qed.

Lemma at_offset_app (pre rest : list Codec) (x : Codec) :
  at_offset (pre ++ x :: rest) (Z.of_nat (List.length pre) - 1 + 1) = Some x.
Proof.
  unfold at_offset.
  replace (Z.of_nat (List.length pre) - 1 + 1) with (Z.of_nat (List.length pre))
    by lia.
  destruct (Z.ltb_spec (Z.of_nat (List.length pre)) 0) as [H|_]; [lia|].
  rewrite Nat2Z.id, nth_error_app2 by lia. now rewrite Nat.sub_diag.
Qed.

(** The counter of [fillLocks] walks the replies in step with the
    resolved calls: after the replies [pre] have been handed out, every
    resolved call receives its own reply and every other position an
    empty list. *)
Lemma fillLocks_positions (f : StorageEntry -> Codec)
    (calls : list (option StorageEntry)) (pre : list Codec) :
  fillLocks (map (fun c => negb (isNonNullable c)) calls)
    (pre ++ map f (filterNonNullable calls))
    (Z.of_nat (List.length pre) - 1)
  = map (fun c => match c with
                  | Some q => Some (f q)
                  | None => Some (CVec [])
                  end) calls.
Proof.
  revert pre. induction calls as [|[q|] calls IH]; intros pre.
  - reflexivity.
  - cbn [map isNonNullable negb filterNonNullable fillLocks].
    rewrite at_offset_app. f_equal.
    specialize (IH (pre ++ [f q])).
    rewrite <- app_assoc in IH. cbn [app] in IH.
    rewrite length_app in IH. cbn [List.length] in IH.
    replace (Z.of_nat (List.length pre) - 1 + 1)
      with (Z.of_nat (List.length pre + 1) - 1) by lia.
    exact IH.
  - cbn [map isNonNullable negb filterNonNullable fillLocks]. f_equal.
    apply IH.
Qed.

(** What [queryCurrent] delivers, for every api and every instance list. *)
Lemma queryCurrent_spec (api : ApiInterfaceRx) (who : AccountId)
    (instances : list string) :
  exists trace,
    queryCurrent api who (Some instances) =
    (trace,
     Some (if query_vesting_vesting api then vestingOf (chain api) who else None,
           map (fun m => match lockCall api m with
                         | Some q => Some (readStorage (chain api) (q, who))
                         | None => Some (CVec [])
                         end) instances)).
Proof.
  unfold queryCurrent.
  set (calls := map (lockCall api) instances).
  set (queries := map (fun c => (c, who)) (filterNonNullable calls)).
  assert (Hfill :
    fillLocks (map (fun c => negb (isNonNullable c)) calls)
      (map (readStorage (chain api)) queries) (-1)
    = map (fun m => match lockCall api m with
                    | Some q => Some (readStorage (chain api) (q, who))
                    | None => Some (CVec [])
                    end) instances).
  { subst queries. rewrite map_map.
    pose proof (fillLocks_positions
                  (fun q => readStorage (chain api) (q, who)) calls []) as H.
    cbn [app List.length] in H. change (Z.of_nat 0 - 1) with (-1) in H.
    rewrite H. subst calls. now rewrite map_map. }
  destruct (query_vesting_vesting api).
  - eexists. unfold pipe_map, queryMulti. cbn [fst snd bind map readStorage].
    rewrite Hfill. reflexivity.
  - destruct queries as [|q0 qs] eqn:Eq.
    + eexists. cbn [List.length Nat.ltb Nat.leb].
      unfold pipe_map, of_. cbn [fst snd bind].
      cbn [map] in Hfill. rewrite Hfill. reflexivity.
    + eexists. cbn [List.length Nat.ltb Nat.leb].
      unfold pipe_map, queryMulti. cbn [fst snd bind].
      rewrite Hfill. reflexivity.
Qed.

(** C6.  For every configured instance list under the current chain
    shape the adapter delivers a result, and its lock-list array has one
    entry per configured instance, in the order of the instances: the
    queried lock list where the instance's lock query resolves, and an
    empty list where it does not. *)
Theorem queryCurrent_lock_lists (api : ApiInterfaceRx) (who : AccountId)
    (instances : list string) :
  exists trace vesting locks,
    queryCurrent api who (Some instances) = (trace, Some (vesting, locks)) /\
    List.length locks = List.length instances /\
    forall i m, nth_error instances i = Some m ->
      (lockCall api m = None ->
       nth_error locks i = Some (Some (CVec []))) /\
      (forall q, lockCall api m = Some q ->
       nth_error locks i = Some (Some (CVec (locksOf (chain api) q who)))).
Proof.
  destruct (queryCurrent_spec api who instances) as [trace E].
  eexists trace, _, _. split; [exact E|]. split.
  - apply length_map.
  - intros i m Hi. rewrite nth_error_map, Hi. cbn [option_map]. split.
    + intros ->. reflexivity.
    + intros q Hq. rewrite Hq. now rewrite (lockCall_reads_locks api m q who Hq).
Qed.

(** Three configured instances of which only the second resolves: a
    three-entry array with empty lists at positions 0 and 2, from a batch
    that holds the one resolved query. *)
Example queryCurrent_three_instances :
  queryCurrent sampleApi aliceId (Some ["balances"; "tokens"; "assets"]%string)
  = ([QueryMulti [(queryLocks "tokens", aliceId)]],
     Some (None, [Some (CVec []); Some (CVec sampleLocks); Some (CVec [])])).
Proof. vm_compute. reflexivity. Qed.

(** ** The full assembly and the vesting projection *)

Lemma bind_Some {A B : Type} (c : option A) (k : A -> option B) (b : B) :
  bind c k = Some b -> exists a, c = Some a /\ k a = Some b.
Proof. destruct c as [a|]; [|discriminate]. intros H. now exists a. Qed.

Lemma started_gt (v : VestingInfo) (h : Z) :
  BN.gt h (startingBlock v) = started v h.
Proof. apply Z.gtb_ltb. Qed.

Lemma mapIndexed_length {A B : Type} (f : A -> nat -> option B) (l : list A)
    (k : nat) (out : list B) :
  mapIndexed f l k = Some out -> List.length out = List.length l.
Proof.
  revert k out. induction l as [|a l IH]; intros k out H; cbn in H.
  - now injection H as <-.
  - apply bind_Some in H as [b [_ H]]. apply bind_Some in H as [bs [Hbs H]].
    injection H as <-. cbn. f_equal. exact (IH _ _ Hbs).
Qed.

Lemma mapIndexed_defined {A B : Type} (f : A -> nat -> option B) (l : list A)
    (k : nat) :
  (forall i a, nth_error l i = Some a -> f a (k + i)%nat <> None) ->
  exists out, mapIndexed f l k = Some out.
Proof.
  revert k. induction l as [|a l IH]; intros k H; cbn [mapIndexed].
  - now exists [].
  - pose proof (H 0%nat a eq_refl) as H0. rewrite Nat.add_0_r in H0.
    destruct (f a k) as [b|]; [|contradiction]. cbn [bind].
    destruct (IH (S k)) as [bs ->].
    + intros i x Hi. rewrite Nat.add_succ_comm. now apply (H (S i)).
    + now exists (b :: bs).
Qed.

(** The steps of [calcBalances], read off a result it returned. *)
Lemma calcBalances_inv (api : ApiInterfaceRx) (data : DeriveBalancesAccount)
    (h : Z) (vesting : option VestingInfo) (allLocks : list (option Codec))
    (r : All.t) :
  calcBalances api (data, h, (vesting, allLocks)) = Some r ->
  let v := effectiveSchedule vesting in
  let vestedNow := if started v h then perBlock v * (h - startingBlock v) else 0 in
  exists shared,
    calcShared api h (accountData data) (at_index allLocks 0) = Some shared /\
    All.shared r = shared /\
    All.isVesting r = started v h && negb (Shared.vestingLocked shared =? 0) /\
    (if vestedNow >? locked v then Some (locked v)
     else createType api Balance vestedNow) = Some (All.vestedBalance r) /\
    createType api Balance
      (if All.isVesting r
       then Shared.vestingLocked shared - (locked v - All.vestedBalance r)
       else 0) = Some (All.vestedClaimable r) /\
    (if All.isVesting r
     then q <- BN.div (locked v) (perBlock v) ;;
          createType api BlockNumber (q + startingBlock v)
     else createType api BlockNumber 0) = Some (All.vestingEndBlock r) /\
    All.vestingPerBlock r = perBlock v /\
    All.vestingTotal r = locked v /\
    List.length (All.additional r) = List.length (tl allLocks).
Proof.
  intros H v vestedNow. unfold calcBalances in H.
  fold (effectiveSchedule vesting) in H. fold v in H.
  rewrite started_gt in H. unfold BN.mul, BN.sub, BN.add, BN.gt, BN.isZero in H.
  fold vestedNow in H.
  apply bind_Some in H as [shared [Es H]].
  apply bind_Some in H as [vb [Evb H]].
  apply bind_Some in H as [add [Eadd H]].
  apply bind_Some in H as [vc [Evc H]].
  apply bind_Some in H as [ve [Eve H]].
  injection H as <-. exists shared.
  cbn [All.shared All.isVesting All.vestedBalance All.vestedClaimable
       All.vestingEndBlock All.vestingPerBlock All.vestingTotal All.additional].
  repeat split; try assumption.
  exact (mapIndexed_length _ _ _ _ Eadd).
Qed.

Lemma vestedNow_nonneg (v : VestingInfo) (h : Z) :
  0 <= perBlock v ->
  0 <= (if started v h then perBlock v * (h - startingBlock v) else 0).
Proof.
  intros Hp. unfold started. destruct (Z.ltb_spec (startingBlock v) h); nia.
Qed.

(** The vested balance a returned result carries is the clamped linear
    amount. *)
Lemma calcBalances_vestedBalance (api : ApiInterfaceRx) (v : VestingInfo)
    (h vb : Z) :
  registry_ok api ->
  in_range Balance (locked v) ->
  0 <= perBlock v ->
  (if (if started v h then perBlock v * (h - startingBlock v) else 0) >? locked v
   then Some (locked v)
   else createType api Balance
          (if started v h then perBlock v * (h - startingBlock v) else 0))
  = Some vb ->
  vb = vestedSpec v h.
Proof.
  intros Hreg Htot Hp. pose proof (vestedNow_nonneg v h Hp) as Hnow.
  unfold vestedSpec.
  set (now_ := if started v h then perBlock v * (h - startingBlock v) else 0) in *.
  rewrite Z.gtb_ltb. destruct (Z.ltb_spec (locked v) now_) as [Hlt|Hge].
  - intros E. injection E as <-. lia.
  - rewrite Hreg by (unfold in_range in *; lia).
    intros E. injection E as <-. lia.
Qed.

(** On every input of [input_ok] the derivation returns. *)
Lemma calcBalances_returns (api : ApiInterfaceRx) (result : Result) :
  registry_ok api ->
  input_ok result ->
  exists r, calcBalances api result = Some r.
Proof.
  destruct result as [[data h] [vesting allLocks]].
  intros Hreg (Hfree & Hlocks & Hadd & Htot & Hp & Hves).
  unfold calcBalances. fold (effectiveSchedule vesting).
  set (v := effectiveSchedule vesting) in *.
  rewrite (calcShared_spec api h _ _ Hreg Hfree Hlocks). cbn [bind].
  rewrite started_gt. unfold BN.mul, BN.sub, BN.add, BN.gt, BN.isZero.
  cbn [sharedSpec Shared.vestingLocked].
  set (vl := vestingSum h (lockList (at_index allLocks 0))) in *.
  pose proof (vestedNow_nonneg v h Hp) as Hnow.
  set (now_ := if started v h then perBlock v * (h - startingBlock v) else 0) in *.
  assert (Evb : (if now_ >? locked v then Some (locked v)
                 else createType api Balance now_) = Some (vestedSpec v h)).
  { unfold vestedSpec. fold now_. rewrite Z.gtb_ltb.
    destruct (Z.ltb_spec (locked v) now_).
    - f_equal. lia.
    - rewrite Hreg by (unfold in_range in *; lia). f_equal. lia. }
  rewrite Evb. cbn [bind].
  destruct (mapIndexed_defined
              (fun l index => calcSharedAt api h (nth_error (additional data) index) l)
              (tl allLocks) 0) as [add ->].
  { intros i l Hi. cbn [Nat.add]. destruct (Hadd i l Hi) as (d & -> & Hd & Hl).
    cbn [calcSharedAt]. rewrite (calcShared_spec api h d l Hreg Hd Hl).
    discriminate. }
  cbn [bind].
  destruct (started v h) eqn:Est; cbn [andb].
  - destruct (Z.eqb_spec vl 0) as [Ez|Enz]; cbn [negb].
    + rewrite !(Hreg _ 0 (in_range_zero _)). cbn [bind]. eexists. reflexivity.
    + destruct (Hves eq_refl Enz) as (Hpos & Hclaim & Hend).
      rewrite (Hreg Balance _ Hclaim). cbn [bind]. unfold BN.div, BN.isZero.
      destruct (Z.eqb_spec (perBlock v) 0) as [E0|_]; [lia|]. cbn [bind].
      rewrite Z.quot_div_nonneg by (unfold in_range in *; lia).
      rewrite (Hreg BlockNumber _ Hend). cbn [bind]. eexists. reflexivity.
  - rewrite !(Hreg _ 0 (in_range_zero _)). cbn [bind]. eexists. reflexivity.
Qed.

Lemma additional_ok_nil (h : Z) (ds : list DeriveBalancesAccountData) :
  additional_ok h [] ds.
Proof. intros [|i] l Hi; discriminate. Qed.

Lemma input_ok_vestingInput (v : option VestingInfo) (h amt : Z) :
  in_range Balance amt ->
  projector_ok (effectiveSchedule v) h amt ->
  input_ok (vestingInput v h amt).
Proof.
  intros Hamt Hproj. unfold vestingInput, input_ok.
  cbn [at_index nth_error lockList tl sampleAccount accountData freeBalance
       additional].
  assert (Hsum : vestingSum h [mkLock vestingTag amt None] = amt).
  { unfold vestingSum, activeLocks, sumZ. cbn. lia. }
  rewrite Hsum. split; [|split; [|split]].
  - apply in_rangeb_in_range. vm_compute. reflexivity.
  - split; [apply Forall_cons; [exact Hamt|apply Forall_nil]|].
    rewrite Hsum. exact Hamt.
  - apply additional_ok_nil.
  - exact Hproj.
Qed.

(** C7.  For every vesting schedule (total, perBlock, startingBlock) and
    every block height: vesting has started exactly when the height is
    strictly above [startingBlock]; [vestedBalance] is the smaller of
    [total] and of [perBlock * (height - startingBlock)] once started, 0
    before; and [isVesting] is "started and [vestingLocked] is not zero".
    The derivation returns on every input of [input_ok]. *)
Theorem calcBalances_vesting_progress (api : ApiInterfaceRx)
    (data : DeriveBalancesAccount) (h : Z) (s : VestingInfo)
    (allLocks : list (option Codec)) :
  registry_ok api ->
  in_range Balance (locked s) ->
  0 <= perBlock s ->
  (input_ok (data, h, (Some s, allLocks)) ->
   exists r, calcBalances api (data, h, (Some s, allLocks)) = Some r) /\
  (forall r, calcBalances api (data, h, (Some s, allLocks)) = Some r ->
     All.isVesting r =
       (startingBlock s <? h) && negb (Shared.vestingLocked (All.shared r) =? 0) /\
     All.vestedBalance r =
       Z.min (if startingBlock s <? h then perBlock s * (h - startingBlock s) else 0)
             (locked s)).
Proof.
  intros Hreg Htot Hp. split.
  - intros Hok. now apply calcBalances_returns.
  - intros r Hr. apply calcBalances_inv in Hr. cbn zeta in Hr.
    destruct Hr as (shared & _ & <- & Hves & Hvb & _).
    cbn [effectiveSchedule] in *. split; [exact Hves|].
    exact (calcBalances_vestedBalance api s h _ Hreg Htot Hp Hvb).
Qed.

Lemma calcBalances_vesting_progress_witness :
  exists r,
    calcBalances sampleApi (vestingInput (Some sampleSchedule) 8 100) = Some r /\
    All.isVesting r = true /\
    All.vestedBalance r = 30.
Proof.
  destruct (calcBalances_vesting_progress sampleApi (sampleAccount aliceId 1000) 8
              sampleSchedule [Some (CVec [mkLock vestingTag 100 None])])
    as [Hret Hprop].
  - exact registry_ok_sampleApi.
  - apply in_rangeb_in_range. vm_compute. reflexivity.
  - vm_compute. discriminate.
  - destruct Hret as [r Hr].
    + apply (input_ok_vestingInput (Some sampleSchedule) 8 100).
      * apply in_rangeb_in_range. vm_compute. reflexivity.
      * repeat split; vm_compute; discriminate.
    + exists r. split; [exact Hr|]. destruct (Hprop r Hr) as [Hves Hvb].
      split; [|exact Hvb]. rewrite Hves.
      vm_compute in Hr. injection Hr as <-. reflexivity.
Defined.

(** Total 100, 10 per block from block 5, with the 100 under a vesting
    lock: nothing at height 5, 30 at height 8, and the clamped 100 at
    height 15. *)
Example calcBalances_vested_heights :
  map (fun h => option_map (fun r => (All.isVesting r, All.vestedBalance r))
                  (calcBalances sampleApi (vestingInput (Some sampleSchedule) h 100)))
      [5; 8; 15]
  = [Some (false, 0); Some (true, 30); Some (true, 100)].
Proof. vm_compute. reflexivity. Qed.

(** C3, as amended.  For every vesting schedule with [perBlock > 0]
    whose end block is a [BlockNumber], whenever [isVesting] is true the
    reported [vestingEndBlock] is [startingBlock] plus the integer quotient
    of [total] by [perBlock], rounded down.  The derivation returns on
    every input of [input_ok]. *)
Theorem calcBalances_vestingEndBlock (api : ApiInterfaceRx)
    (data : DeriveBalancesAccount) (h : Z) (s : VestingInfo)
    (allLocks : list (option Codec)) :
  registry_ok api ->
  0 < perBlock s ->
  0 <= locked s ->
  in_range BlockNumber (startingBlock s + locked s / perBlock s) ->
  (input_ok (data, h, (Some s, allLocks)) ->
   exists r, calcBalances api (data, h, (Some s, allLocks)) = Some r) /\
  (forall r, calcBalances api (data, h, (Some s, allLocks)) = Some r ->
     All.isVesting r = true ->
     All.vestingEndBlock r = startingBlock s + locked s / perBlock s).
Proof.
  intros Hreg Hp Htot Hend. split.
  - intros Hok. now apply calcBalances_returns.
  - intros r Hr Hves. apply calcBalances_inv in Hr. cbn zeta in Hr.
    destruct Hr as (shared & _ & _ & _ & _ & _ & Hve & _).
    cbn [effectiveSchedule] in Hve. rewrite Hves in Hve.
    unfold BN.div, BN.isZero in Hve.
    destruct (Z.eqb_spec (perBlock s) 0) as [E0|_]; [lia|]. cbn [bind] in Hve.
    rewrite Z.quot_div_nonneg in Hve by lia.
    rewrite Hreg in Hve by (rewrite Z.add_comm; exact Hend).
    injection Hve as <-. lia.
Qed.

Lemma calcBalances_vestingEndBlock_witness :
  exists r,
    calcBalances sampleApi (vestingInput (Some unevenSchedule) 6 95) = Some r /\
    All.vestingEndBlock r = 14.
Proof.
  destruct (calcBalances_vestingEndBlock sampleApi (sampleAccount aliceId 1000) 6
              unevenSchedule [Some (CVec [mkLock vestingTag 95 None])])
    as [Hret Hprop].
  - exact registry_ok_sampleApi.
  - vm_compute. reflexivity.
  - vm_compute. discriminate.
  - apply in_rangeb_in_range. vm_compute. reflexivity.
  - destruct Hret as [r Hr].
    + apply (input_ok_vestingInput (Some unevenSchedule) 6 95).
      * apply in_rangeb_in_range. vm_compute. reflexivity.
      * repeat split; vm_compute; (discriminate || reflexivity).
    + exists r. split; [exact Hr|]. rewrite (Hprop r Hr); [reflexivity|].
      vm_compute in Hr. injection Hr as <-. reflexivity.
Defined.

(** C3 as first stated does not hold: for total 95, 10 per block from
    block 5, while vesting, the reported end block is 14 and not the
    rounded-up 15. *)
Lemma calcBalances_vestingEndBlock_not_ceil :
  ~ (forall (api : ApiInterfaceRx) (data : DeriveBalancesAccount) (h : Z)
            (s : VestingInfo) (allLocks : list (option Codec)) (r : All.t),
        registry_ok api ->
        0 < perBlock s ->
        calcBalances api (data, h, (Some s, allLocks)) = Some r ->
        All.isVesting r = true ->
        All.vestingEndBlock r = startingBlock s + ceilDiv (locked s) (perBlock s)).
Proof.
  intros H.
  destruct (calcBalances sampleApi (vestingInput (Some unevenSchedule) 6 95))
    as [r|] eqn:Hr; [|vm_compute in Hr; discriminate].
  specialize (H sampleApi (sampleAccount aliceId 1000) 6 unevenSchedule
                [Some (CVec [mkLock vestingTag 95 None])] r
                registry_ok_sampleApi eq_refl Hr).
  vm_compute in Hr. injection Hr as <-.
  specialize (H eq_refl). vm_compute in H. discriminate.
Qed.

(** Total 95, 10 per block from block 5, at height 6 with the 95 under a
    vesting lock: the end block is 14. *)
Example calcBalances_uneven_end :
  option_map (fun r => (All.isVesting r, All.vestingEndBlock r))
    (calcBalances sampleApi (vestingInput (Some unevenSchedule) 6 95))
  = Some (true, 14).
Proof. vm_compute. reflexivity. Qed.

(** C2, the failing case.  With no schedule, a positive height and a
    non-zero amount under active vesting locks, the projection takes the
    vesting branch with the empty schedule and divides its zero total by
    its zero rate: the derivation throws instead of returning zero-valued
    vesting fields. *)
Theorem calcBalances_no_schedule_throws (api : ApiInterfaceRx)
    (data : DeriveBalancesAccount) (h : Z) (allLocks : list (option Codec)) :
  registry_ok api ->
  in_range Balance (freeBalance (accountData data)) ->
  locks_ok h (lockList (at_index allLocks 0)) ->
  0 < h ->
  vestingSum h (lockList (at_index allLocks 0)) <> 0 ->
  calcBalances api (data, h, (None, allLocks)) = None.
Proof.
  intros Hreg Hfree Hlocks Hh Hvl. unfold calcBalances.
  rewrite (calcShared_spec api h _ _ Hreg Hfree Hlocks). cbn [bind].
  cbn [emptyVest locked perBlock startingBlock sharedSpec Shared.vestingLocked].
  unfold BN.gt, BN.mul, BN.sub, BN.isZero.
  assert (Hgt : (h >? 0) = true) by (rewrite Z.gtb_ltb; now apply Z.ltb_lt).
  rewrite Z.mul_0_l, Hgt. cbn [Z.gtb Z.compare].
  rewrite (Hreg Balance 0 (in_range_zero Balance)). cbn [bind andb].
  destruct (Z.eqb_spec (vestingSum h (lockList (at_index allLocks 0))) 0)
    as [E|_]; [contradiction|]. cbn [negb].
  destruct (mapIndexed _ (tl allLocks) 0); [|reflexivity]. cbn [bind].
  destruct (createType api Balance _); reflexivity.
Qed.

Lemma calcBalances_no_schedule_throws_witness :
  calcBalances sampleApi (vestingInput None 1 10) = None.
Proof.
  apply (calcBalances_no_schedule_throws sampleApi (sampleAccount aliceId 1000) 1
           [Some (CVec [mkLock vestingTag 10 None])]).
  - exact registry_ok_sampleApi.
  - apply in_rangeb_in_range. vm_compute. reflexivity.
  - apply locks_okb_ok. vm_compute. reflexivity.
  - reflexivity.
  - vm_compute. discriminate.
Defined.

(** With no schedule, wherever the derivation is defined the six vesting
    fields are at rest and the primary view is the composer's. *)
Lemma calcBalances_no_schedule_at_rest (api : ApiInterfaceRx)
    (data : DeriveBalancesAccount) (h : Z) (allLocks : list (option Codec)) :
  registry_ok api ->
  input_ok (data, h, (None, allLocks)) ->
  exists r,
    calcBalances api (data, h, (None, allLocks)) = Some r /\
    All.shared r = sharedSpec h (accountData data) (lockList (at_index allLocks 0)) /\
    List.length (All.additional r) = List.length (tl allLocks) /\
    vestingAtRest r.
Proof.
  intros Hreg Hok.
  destruct (calcBalances_returns api _ Hreg Hok) as [r Hr].
  exists r. split; [exact Hr|].
  destruct Hok as (Hfree & Hlocks & _ & Htot & Hp & Hves).
  apply calcBalances_inv in Hr. cbn zeta in Hr.
  destruct Hr as (shared & Hs & Hsh & Hiv & Hvb & Hvc & Hve & Hpb & Hvt & Hlen).
  rewrite (calcShared_spec api h _ _ Hreg Hfree Hlocks) in Hs.
  injection Hs as <-. split; [exact Hsh|]. split; [exact Hlen|].
  cbn [effectiveSchedule] in *.
  assert (Hrest : All.isVesting r = false).
  { rewrite Hiv. cbn [sharedSpec Shared.vestingLocked].
    destruct (started emptyVest h) eqn:Est; [|reflexivity]. cbn [andb].
    destruct (Z.eqb_spec (vestingSum h (lockList (at_index allLocks 0))) 0)
      as [_|Hnz]; [reflexivity|].
    destruct (Hves eq_refl Hnz) as [Hpos _]. cbn in Hpos. lia. }
  rewrite Hrest in Hvc, Hve.
  rewrite (Hreg Balance 0 (in_range_zero Balance)) in Hvc.
  rewrite (Hreg BlockNumber 0 (in_range_zero BlockNumber)) in Hve.
  apply (calcBalances_vestedBalance api emptyVest h _ Hreg Htot Hp) in Hvb.
  unfold vestingAtRest. repeat split; try congruence; try assumption.
  rewrite Hvb. unfold vestedSpec. cbn [emptyVest perBlock locked startingBlock].
  destruct (started emptyVest h); reflexivity.
Qed.

(** ** The entry point *)

Lemma input_ok_unknown (account : DeriveBalancesAccount) :
  in_range Balance (freeBalance (accountData account)) ->
  input_ok (account, 0, (None, [])).
Proof.
  intros Hfree. unfold input_ok. cbn [at_index nth_error lockList tl].
  split; [exact Hfree|]. split; [apply locks_ok_nil|].
  split; [apply additional_ok_nil|].
  split; [apply (in_range_zero Balance)|]. split; [reflexivity|].
  intros Hst. discriminate Hst.
Qed.

(** An account with an empty [accountId]: one subscription, to the account
    feed, and the derivation of that account at height 0 with no schedule
    and no lock list. *)
Lemma all_empty_accountId (instanceId : string) (api : ApiInterfaceRx)
    (address : string) :
  registry_ok api ->
  isEmpty (accountId (derive_balances_account api address)) = true ->
  all instanceId api address =
  ([AccountFeed address],
   calcBalances api (derive_balances_account api address, 0, (None, []))).
Proof.
  intros Hreg Hempty. unfold all, switchMap, derive_balances_account_feed.
  cbn [fst snd]. rewrite Hempty. cbn [negb].
  rewrite (Hreg BlockNumber 0 (in_range_zero BlockNumber)).
  unfold pipe_map, of_. cbn [fst snd bind app]. reflexivity.
Qed.

(** C9.  For every requested address whose account does not exist
    on-chain (the account feed delivers an empty [accountId] and zero
    balance components), [all] emits a result, not an error; the result is
    zero-valued; and no lock or vesting query is issued: the account feed
    is the only subscription. *)
Theorem all_unknown_account (instanceId : string) (api : ApiInterfaceRx)
    (address : string) :
  registry_ok api ->
  isEmpty (accountId (derive_balances_account api address)) = true ->
  freeBalance (accountData (derive_balances_account api address)) = 0 ->
  reservedBalance (accountData (derive_balances_account api address)) = 0 ->
  exists r,
    all instanceId api address = ([AccountFeed address], Some r) /\
    existsb isQueryMulti (fst (all instanceId api address)) = false /\
    zeroValued r.
Proof.
  intros Hreg Hempty Hfree Hres.
  rewrite (all_empty_accountId instanceId api address Hreg Hempty).
  set (account := derive_balances_account api address) in *.
  assert (Hok : input_ok (account, 0, (None, []))).
  { apply input_ok_unknown. rewrite Hfree. apply (in_range_zero Balance). }
  destruct (calcBalances_no_schedule_at_rest api account 0 [] Hreg Hok)
    as (r & Hr & Hsh & Hlen & Hiv & Hvb & Hvc & Hve & Hpb & Hvt).
  exists r. rewrite Hr. split; [reflexivity|]. split; [reflexivity|].
  unfold zeroValued. rewrite Hsh.
  cbn [sharedSpec Shared.data Shared.availableBalance Shared.lockedBalance
       Shared.lockedBreakdown Shared.vestingLocked at_index nth_error lockList].
  rewrite Hfree, Hres.
  apply length_zero_iff_nil in Hlen.
  repeat split; assumption || reflexivity.
Qed.

Lemma all_unknown_account_witness :
  exists r,
    all "scope" sampleApi "5Unknown" = ([AccountFeed "5Unknown"%string], Some r) /\
    existsb isQueryMulti (fst (all "scope" sampleApi "5Unknown")) = false /\
    zeroValued r.
Proof.
  apply (all_unknown_account "scope" sampleApi "5Unknown").
  - exact registry_ok_sampleApi.
  - reflexivity.
  - reflexivity.
  - reflexivity.
Defined.

(** * Further properties *)

(** ** The lock resolver over heights, orders and its own output *)

Lemma active_earlier (h h' : Z) (l : BalanceLock) :
  h <= h' -> active h' l -> active h l.
Proof.
  intros Hle [Hn|[u [Hu Hlt]]]; [now left|]. right. exists u. split; [easy|lia].
Qed.

Lemma activeb_earlier (h h' : Z) (l : BalanceLock) :
  h <= h' -> activeb h' l = true -> activeb h l = true.
Proof.
  intros Hle H. apply activeb_active. apply activeb_active in H.
  now apply (active_earlier h h').
Qed.

Lemma maxZ_least (l : list Z) (b : Z) :
  0 <= b -> (forall x, In x l -> x <= b) -> maxZ l <= b.
Proof.
  intros Hb. induction l as [|x l IH]; intros H.
  - exact Hb.
  - rewrite maxZ_cons. pose proof (H x (or_introl eq_refl)).
    assert (maxZ l <= b) by (apply IH; intros y Hy; apply H; now right). lia.
Qed.

Lemma vestingSum_cons (h : Z) (x : BalanceLock) (l : list BalanceLock) :
  vestingSum h (x :: l) =
  (if activeb h x && taggedVesting x then amount x else 0) + vestingSum h l.
Proof.
  unfold vestingSum, activeLocks. cbn [filter].
  destruct (activeb h x); cbn [andb filter]; [|lia].
  destruct (taggedVesting x); cbn [map]; [apply sumZ_cons|lia].
Qed.

Lemma vestingSum_later (h h' : Z) (locks : list BalanceLock) :
  h <= h' ->
  Forall (fun l => in_range Balance (amount l)) locks ->
  0 <= vestingSum h' locks <= vestingSum h locks.
Proof.
  intros Hle. induction 1 as [|x l [Hx _] _ IH].
  - cbv. split; discriminate.
  - rewrite !vestingSum_cons.
    pose proof (activeb_earlier h h' x Hle) as Hact.
    destruct (activeb h' x); destruct (activeb h x);
      destruct (taggedVesting x); cbn [andb];
      try (specialize (Hact eq_refl); discriminate); lia.
Qed.

Lemma locks_ok_later (h h' : Z) (locks : list BalanceLock) :
  h <= h' -> locks_ok h locks -> locks_ok h' locks.
Proof.
  intros Hle [Hamt Hsum]. split; [exact Hamt|].
  pose proof (vestingSum_later h h' locks Hle Hamt). unfold in_range in *. lia.
Qed.

(** X1.  As the height grows locks only lapse: the breakdown at the later
    height is contained in the one at the earlier height, and neither
    [lockedBalance] nor [vestingLocked] grows. *)
Theorem calcLocked_height_monotone (api : ApiInterfaceRx) (h h' : Z)
    (locks : option Codec) :
  registry_ok api ->
  locks_ok h (lockList locks) ->
  h <= h' ->
  exists r r',
    calcLocked api h locks = Some r /\
    calcLocked api h' locks = Some r' /\
    incl (AllLocked.lockedBreakdown r') (AllLocked.lockedBreakdown r) /\
    AllLocked.lockedBalance r' <= AllLocked.lockedBalance r /\
    AllLocked.vestingLocked r' <= AllLocked.vestingLocked r.
Proof.
  intros Hreg Hok Hle.
  pose proof (locks_ok_later h h' _ Hle Hok) as Hok'.
  exists (lockedSpec h (lockList locks)), (lockedSpec h' (lockList locks)).
  split; [now apply calcLocked_spec|]. split; [now apply calcLocked_spec|].
  cbn [lockedSpec AllLocked.lockedBreakdown AllLocked.lockedBalance
       AllLocked.vestingLocked].
  split; [|split].
  - intros l Hl. apply activeLocks_In in Hl. apply activeLocks_In.
    split; [tauto|]. apply (active_earlier h h'); tauto.
  - apply maxZ_least; [apply maxZ_nonneg|].
    intros x Hx. apply in_map_iff in Hx. destruct Hx as [l [<- Hl]].
    apply maxZ_upper, in_map. apply partialLocks_In in Hl.
    apply partialLocks_In. repeat split; try tauto.
    apply (active_earlier h h'); tauto.
  - destruct Hok as [Hamt _]. apply (vestingSum_later h h' _ Hle Hamt).
Qed.

Lemma calcLocked_height_monotone_witness :
  exists r r',
    calcLocked sampleApi 3 (Some (CVec overlappingLocks)) = Some r /\
    calcLocked sampleApi 10 (Some (CVec overlappingLocks)) = Some r' /\
    incl (AllLocked.lockedBreakdown r') (AllLocked.lockedBreakdown r) /\
    AllLocked.lockedBalance r' <= AllLocked.lockedBalance r /\
    AllLocked.vestingLocked r' <= AllLocked.vestingLocked r.
Proof.
  apply (calcLocked_height_monotone sampleApi 3 10 (Some (CVec overlappingLocks))).
  - exact registry_ok_sampleApi.
  - apply locks_okb_ok. vm_compute. reflexivity.
  - vm_compute. discriminate.
Defined.

(** X2.  The sentinel never shows as a locked amount: [lockedBalance] is
    a [Balance] strictly below the sentinel maximum, and every entry of
    the breakdown is an entry of the input. *)
Theorem calcLocked_below_sentinel (api : ApiInterfaceRx) (h : Z)
    (locks : option Codec) :
  registry_ok api ->
  locks_ok h (lockList locks) ->
  exists r,
    calcLocked api h locks = Some r /\
    0 <= AllLocked.lockedBalance r < sentinel /\
    incl (AllLocked.lockedBreakdown r) (lockList locks).
Proof.
  intros Hreg Hok. exists (lockedSpec h (lockList locks)).
  split; [now apply calcLocked_spec|].
  cbn [lockedSpec AllLocked.lockedBalance AllLocked.lockedBreakdown].
  split; [split; [apply maxZ_nonneg|]|apply incl_filter].
  assert (Hs : 0 <= sentinel - 1) by (vm_compute; discriminate).
  enough (maxZ (map amount (partialLocks h (lockList locks))) <= sentinel - 1) by lia.
  apply maxZ_least; [exact Hs|].
  intros x Hx. apply in_map_iff in Hx. destruct Hx as [l [<- Hl]].
  apply partialLocks_In in Hl. destruct Hl as (Hin & _ & Hne).
  destruct Hok as [Hamt _]. rewrite Forall_forall in Hamt.
  destruct (Hamt l Hin) as [_ Hhi]. fold sentinel in Hhi. lia.
Qed.

Lemma calcLocked_below_sentinel_witness :
  exists r,
    calcLocked sampleApi 10 (Some (CVec frozenLocks)) = Some r /\
    0 <= AllLocked.lockedBalance r < sentinel /\
    incl (AllLocked.lockedBreakdown r) frozenLocks.
Proof.
  apply (calcLocked_below_sentinel sampleApi 10 (Some (CVec frozenLocks))).
  - exact registry_ok_sampleApi.
  - apply locks_okb_ok. vm_compute. reflexivity.
Defined.

Lemma filter_twice {A : Type} (f : A -> bool) (l : list A) :
  filter f (filter f l) = filter f l.
Proof.
  induction l as [|x l IH]; [reflexivity|]. cbn [filter].
  destruct (f x) eqn:E; [|exact IH]. cbn [filter]. now rewrite E, IH.
Qed.

Lemma lockedSpec_activeLocks (h : Z) (locks : list BalanceLock) :
  lockedSpec h (activeLocks h locks) = lockedSpec h locks.
Proof.
  unfold lockedSpec, partialLocks, vestingSum.
  assert (E : activeLocks h (activeLocks h locks) = activeLocks h locks)
    by apply filter_twice.
  now rewrite E.
Qed.

(** X3.  The resolver is idempotent: run again on the breakdown it
    returned, at the same height, it returns the same result. *)
Theorem calcLocked_idempotent (api : ApiInterfaceRx) (h : Z)
    (locks : option Codec) :
  registry_ok api ->
  locks_ok h (lockList locks) ->
  exists r,
    calcLocked api h locks = Some r /\
    calcLocked api h (Some (CVec (AllLocked.lockedBreakdown r))) = Some r.
Proof.
  intros Hreg Hok. exists (lockedSpec h (lockList locks)).
  split; [now apply calcLocked_spec|].
  cbn [lockedSpec AllLocked.lockedBreakdown].
  rewrite <- (lockedSpec_activeLocks h (lockList locks)).
  apply (calcLocked_spec api h (Some (CVec (activeLocks h (lockList locks)))) Hreg).
  cbn [lockList]. destruct Hok as [Hamt Hsum]. split.
  - now apply Forall_filter_keep.
  - unfold vestingSum in *.
    assert (E : activeLocks h (activeLocks h (lockList locks))
                = activeLocks h (lockList locks)) by apply filter_twice.
    now rewrite E.
Qed.

Lemma calcLocked_idempotent_witness :
  exists r,
    calcLocked sampleApi 10 (Some (CVec frozenLocks)) = Some r /\
    calcLocked sampleApi 10 (Some (CVec (AllLocked.lockedBreakdown r))) = Some r.
Proof.
  apply (calcLocked_idempotent sampleApi 10 (Some (CVec frozenLocks))).
  - exact registry_ok_sampleApi.
  - apply locks_okb_ok. vm_compute. reflexivity.
Defined.

Lemma Permutation_filter_keep {A : Type} (f : A -> bool) (l l' : list A) :
  Permutation l l' -> Permutation (filter f l) (filter f l').
Proof.
  induction 1 as [|x l l' _ IH|x y l|l l' l'' _ IH1 _ IH2]; cbn [filter].
  - constructor.
  - destruct (f x); [now constructor|exact IH].
  - destruct (f x); destruct (f y);
      try apply Permutation_refl. apply perm_swap.
  - now transitivity (filter f l').
Qed.

Lemma sumZ_Permutation (l l' : list Z) : Permutation l l' -> sumZ l = sumZ l'.
Proof.
  induction 1 as [|x l l' _ IH|x y l|l l' l'' _ IH1 _ IH2];
    rewrite ?sumZ_cons; try reflexivity; lia.
Qed.

Lemma maxZ_Permutation (l l' : list Z) : Permutation l l' -> maxZ l = maxZ l'.
Proof.
  induction 1 as [|x l l' _ IH|x y l|l l' l'' _ IH1 _ IH2];
    rewrite ?maxZ_cons; try reflexivity; lia.
Qed.

Lemma existsb_Permutation {A : Type} (f : A -> bool) (l l' : list A) :
  Permutation l l' -> existsb f l = existsb f l'.
Proof.
  induction 1 as [|x l l' _ IH|x y l|l l' l'' _ IH1 _ IH2]; cbn [existsb].
  - reflexivity.
  - now rewrite IH.
  - destruct (f x); destruct (f y); reflexivity.
  - congruence.
Qed.

(** X4.  The order of the lock list does not matter: a reordered list
    gives the same [allLocked], [lockedBalance] and [vestingLocked], and
    the breakdown reordered. *)
Theorem calcLocked_order_irrelevant (api : ApiInterfaceRx) (h : Z)
    (locks locks' : list BalanceLock) :
  registry_ok api ->
  locks_ok h locks ->
  Permutation locks locks' ->
  exists r r',
    calcLocked api h (Some (CVec locks)) = Some r /\
    calcLocked api h (Some (CVec locks')) = Some r' /\
    AllLocked.allLocked r' = AllLocked.allLocked r /\
    AllLocked.lockedBalance r' = AllLocked.lockedBalance r /\
    AllLocked.vestingLocked r' = AllLocked.vestingLocked r /\
    Permutation (AllLocked.lockedBreakdown r) (AllLocked.lockedBreakdown r').
Proof.
  intros Hreg Hok Hperm.
  assert (Hact : Permutation (activeLocks h locks) (activeLocks h locks'))
    by now apply Permutation_filter_keep.
  assert (Hsum : vestingSum h locks' = vestingSum h locks).
  { unfold vestingSum. symmetry. apply sumZ_Permutation, Permutation_map.
    now apply Permutation_filter_keep. }
  assert (Hok' : locks_ok h locks').
  { destruct Hok as [Hamt Hs]. split.
    - exact (Permutation_Forall Hperm Hamt).
    - now rewrite Hsum. }
  exists (lockedSpec h locks), (lockedSpec h locks').
  split; [exact (calcLocked_spec api h (Some (CVec locks)) Hreg Hok)|].
  split; [exact (calcLocked_spec api h (Some (CVec locks')) Hreg Hok')|].
  cbn [lockedSpec AllLocked.allLocked AllLocked.lockedBalance
       AllLocked.vestingLocked AllLocked.lockedBreakdown].
  repeat split.
  - symmetry. now apply existsb_Permutation.
  - symmetry. apply maxZ_Permutation, Permutation_map.
    now apply Permutation_filter_keep.
  - exact Hsum.
  - exact Hact.
Qed.

Lemma calcLocked_order_irrelevant_witness :
  exists r r',
    calcLocked sampleApi 10 (Some (CVec frozenLocks)) = Some r /\
    calcLocked sampleApi 10 (Some (CVec (rev frozenLocks))) = Some r' /\
    AllLocked.allLocked r' = AllLocked.allLocked r /\
    AllLocked.lockedBalance r' = AllLocked.lockedBalance r /\
    AllLocked.vestingLocked r' = AllLocked.vestingLocked r /\
    Permutation (AllLocked.lockedBreakdown r) (AllLocked.lockedBreakdown r').
Proof.
  apply (calcLocked_order_irrelevant sampleApi 10 frozenLocks (rev frozenLocks)).
  - exact registry_ok_sampleApi.
  - apply locks_okb_ok. vm_compute. reflexivity.
  - apply Permutation_rev.
Defined.

(** X5.  A missing or non-array lock input is handled as an empty lock
    list, whatever the registry does: both give the same outcome. *)
Theorem calcLocked_non_array (api : ApiInterfaceRx) (h : Z)
    (locks : option Codec) :
  asArray locks = None ->
  calcLocked api h locks = calcLocked api h (Some (CVec [])).
Proof.
  intros Hnone. unfold calcLocked. rewrite Hnone. cbn [asArray filter existsb
    fold_left map List.length Nat.ltb Nat.leb].
  destruct (createType api Balance 0) as [z|]; reflexivity.
Qed.

Lemma calcLocked_non_array_witness :
  calcLocked sampleApi 10 None = calcLocked sampleApi 10 (Some (CVec [])) /\
  calcLocked sampleApi 10 (Some (COptInfo None))
  = calcLocked sampleApi 10 (Some (CVec [])).
Proof.
  split.
  - apply (calcLocked_non_array sampleApi 10 None). reflexivity.
  - apply (calcLocked_non_array sampleApi 10 (Some (COptInfo None))). reflexivity.
Defined.

(** ** The composer over heights *)

Lemma lockedBalance_later (h h' : Z) (locks : list BalanceLock) :
  h <= h' ->
  maxZ (map amount (partialLocks h' locks))
  <= maxZ (map amount (partialLocks h locks)).
Proof.
  intros Hle. apply maxZ_least; [apply maxZ_nonneg|].
  intros x Hx. apply in_map_iff in Hx. destruct Hx as [l [<- Hl]].
  apply maxZ_upper, in_map. apply partialLocks_In in Hl.
  apply partialLocks_In. repeat split; try tauto.
  apply (active_earlier h h'); tauto.
Qed.

(** X6.  [availableBalance] never shrinks as the height grows: lapsing
    locks can only release balance. *)
Theorem calcShared_height_monotone (api : ApiInterfaceRx) (h h' : Z)
    (d : DeriveBalancesAccountData) (locks : option Codec) :
  registry_ok api ->
  in_range Balance (freeBalance d) ->
  locks_ok h (lockList locks) ->
  h <= h' ->
  exists r r',
    calcShared api h d locks = Some r /\
    calcShared api h' d locks = Some r' /\
    Shared.availableBalance r <= Shared.availableBalance r'.
Proof.
  intros Hreg Hfree Hok Hle.
  pose proof (locks_ok_later h h' _ Hle Hok) as Hok'.
  pose proof (lockedBalance_later h h' (lockList locks) Hle) as Hbal.
  exists (sharedSpec h d (lockList locks)), (sharedSpec h' d (lockList locks)).
  split; [now apply calcShared_spec|]. split; [now apply calcShared_spec|].
  cbn [sharedSpec Shared.availableBalance].
  destruct (existsb isSentinel (activeLocks h' (lockList locks))) eqn:E'.
  - apply frozen_iff in E'. destruct E' as (l & Hin & Hact & Hamt).
    assert (E : existsb isSentinel (activeLocks h (lockList locks)) = true).
    { apply frozen_iff. exists l. repeat split; try assumption.
      now apply (active_earlier h h'). }
    rewrite E. lia.
  - destruct (existsb isSentinel (activeLocks h (lockList locks))); lia.
Qed.

Lemma calcShared_height_monotone_witness :
  exists r r',
    calcShared sampleApi 3 (sampleData 60) (Some (CVec overlappingLocks)) = Some r /\
    calcShared sampleApi 10 (sampleData 60) (Some (CVec overlappingLocks)) = Some r' /\
    Shared.availableBalance r <= Shared.availableBalance r'.
Proof.
  apply (calcShared_height_monotone sampleApi 3 10 (sampleData 60)
           (Some (CVec overlappingLocks))).
  - exact registry_ok_sampleApi.
  - apply in_rangeb_in_range. vm_compute. reflexivity.
  - apply locks_okb_ok. vm_compute. reflexivity.
  - vm_compute. discriminate.
Defined.

(** ** The assembly: secondary views and the vesting fields *)

Lemma mapIndexed_nth {A B : Type} (f : A -> nat -> option B) (l : list A)
    (k : nat) (out : list B) :
  mapIndexed f l k = Some out ->
  forall i a, nth_error l i = Some a ->
    exists b, nth_error out i = Some b /\ f a (k + i)%nat = Some b.
Proof.
  revert k out. induction l as [|x l IH]; intros k out H i a Hi.
  - destruct i; discriminate.
  - cbn [mapIndexed] in H. apply bind_Some in H as [b [Hb H]].
    apply bind_Some in H as [bs [Hbs H]]. injection H as <-.
    destruct i as [|i]; cbn [nth_error] in *.
    + injection Hi as <-. exists b. now rewrite Nat.add_0_r.
    + destruct (IH _ _ Hbs i a Hi) as [b' [Hn Hf]]. exists b'.
      split; [exact Hn|]. now rewrite <- Nat.add_succ_comm.
Qed.

Lemma mapIndexed_fails {A B : Type} (f : A -> nat -> option B) (l : list A)
    (k i : nat) (a : A) :
  nth_error l i = Some a -> f a (k + i)%nat = None -> mapIndexed f l k = None.
Proof.
  intros Hi Hf. destruct (mapIndexed f l k) as [out|] eqn:E; [|reflexivity].
  destruct (mapIndexed_nth f l k out E i a Hi) as [b [_ Hb]]. congruence.
Qed.

Lemma calcBalances_inv_additional (api : ApiInterfaceRx)
    (data : DeriveBalancesAccount) (h : Z) (vesting : option VestingInfo)
    (allLocks : list (option Codec)) (r : All.t) :
  calcBalances api (data, h, (vesting, allLocks)) = Some r ->
  mapIndexed
    (fun l index => calcSharedAt api h (nth_error (additional data) index) l)
    (tl allLocks) 0 = Some (All.additional r).
Proof.
  intros H. unfold calcBalances in H.
  apply bind_Some in H as [shared [_ H]].
  apply bind_Some in H as [vb [_ H]].
  apply bind_Some in H as [add [Eadd H]].
  apply bind_Some in H as [vc [_ H]].
  apply bind_Some in H as [ve [_ H]].
  injection H as <-. exact Eadd.
Qed.

Lemma calcBalances_additional_length (api : ApiInterfaceRx)
    (data : DeriveBalancesAccount) (h : Z) (vesting : option VestingInfo)
    (allLocks : list (option Codec)) (r : All.t) :
  calcBalances api (data, h, (vesting, allLocks)) = Some r ->
  List.length (All.additional r) = (List.length allLocks - 1)%nat.
Proof.
  intros H. apply calcBalances_inv_additional in H.
  rewrite (mapIndexed_length _ _ _ _ H). destruct allLocks; cbn; lia.
Qed.

(** Whatever the registry does, the [allLocked] flag of a result of the
    resolver is the test for an active sentinel lock. *)
Lemma calcLocked_allLocked (api : ApiInterfaceRx) (h : Z) (locks : option Codec)
    (a : AllLocked.t) :
  calcLocked api h locks = Some a ->
  AllLocked.allLocked a = existsb isSentinel (activeLocks h (lockList locks)).
Proof.
  unfold calcLocked. intros H.
  apply bind_Some in H as [l0 [_ H]]. apply bind_Some in H as [v0 [_ H]].
  destruct locks as [[l|v|v]|]; cbn [asArray lockList] in *;
    try (injection H as <-; reflexivity).
  apply bind_Some in H as [vl [_ H]]. apply bind_Some in H as [lb [_ H]].
  injection H as <-. cbn [AllLocked.allLocked].
  rewrite (filter_ext _ _ (stillValid_activeb h) l). reflexivity.
Qed.

(** The callback of [additional] on a missing component: it returns only
    for a lock list with an active sentinel lock. *)
Lemma calcSharedAt_undefined (api : ApiInterfaceRx) (h : Z)
    (locks : option Codec) (view : View.t) :
  calcSharedAt api h None locks = Some view ->
  exists a,
    calcLocked api h locks = Some a /\
    (exists lock, In lock (lockList locks) /\ active h lock /\
                  amount lock = sentinel) /\
    createType api Balance 0 = Some (View.availableBalance view) /\
    View.data view = None /\
    View.lockedBalance view = AllLocked.lockedBalance a /\
    View.lockedBreakdown view = AllLocked.lockedBreakdown a /\
    View.vestingLocked view = AllLocked.vestingLocked a.
Proof.
  cbn [calcSharedAt]. intros H. apply bind_Some in H as [a [Ha H]].
  apply bind_Some in H as [avail [Hav H]]. injection H as <-.
  exists a. split; [exact Ha|].
  destruct (AllLocked.allLocked a) eqn:Efrozen; [|discriminate].
  rewrite (calcLocked_allLocked api h locks a Ha) in Efrozen.
  apply frozen_iff in Efrozen. cbn. repeat split; assumption || reflexivity.
Qed.

(** X7.  In every result the derivation returns, [additional] holds one
    derived view per secondary lock list, in order.  Where the account
    carries the additional balance components of that position, the view
    is the composer's for these components and the lock list, with the
    components in it.  Where it does not, the view carries no components,
    the lock list holds an active sentinel lock, and the view has the
    resolver's locked amounts and the registry's zero as
    [availableBalance]. *)
Theorem calcBalances_additional (api : ApiInterfaceRx)
    (data : DeriveBalancesAccount) (h : Z) (vesting : option VestingInfo)
    (allLocks : list (option Codec)) (r : All.t) :
  calcBalances api (data, h, (vesting, allLocks)) = Some r ->
  List.length (All.additional r) = (List.length allLocks - 1)%nat /\
  forall i l, nth_error allLocks (S i) = Some l ->
    exists view,
      nth_error (All.additional r) i = Some view /\
      match nth_error (additional data) i with
      | Some d =>
          exists s, calcShared api h d l = Some s /\ view = withComponents s
      | None =>
          exists a,
            calcLocked api h l = Some a /\
            (exists lock, In lock (lockList l) /\ active h lock /\
                          amount lock = sentinel) /\
            createType api Balance 0 = Some (View.availableBalance view) /\
            View.data view = None /\
            View.lockedBalance view = AllLocked.lockedBalance a /\
            View.lockedBreakdown view = AllLocked.lockedBreakdown a /\
            View.vestingLocked view = AllLocked.vestingLocked a
      end.
Proof.
  intros H. split; [exact (calcBalances_additional_length _ _ _ _ _ _ H)|].
  apply calcBalances_inv_additional in H.
  intros i l Hi.
  assert (Hi' : nth_error (tl allLocks) i = Some l)
    by (destruct allLocks; [discriminate|exact Hi]).
  destruct (mapIndexed_nth _ _ _ _ H i l Hi') as [view [Hn Hf]].
  cbn [Nat.add] in Hf. exists view. split; [exact Hn|].
  destruct (nth_error (additional data) i) as [d|].
  - cbn [calcSharedAt] in Hf.
    destruct (calcShared api h d l) as [s|]; [|discriminate].
    injection Hf as <-. now exists s.
  - now apply calcSharedAt_undefined.
Qed.

Lemma calcBalances_additional_witness :
  (exists r,
     calcBalances currentApi
       (twoInstanceAccount, 8, (Some sampleSchedule, twoInstanceLocks)) = Some r /\
     exists view s,
       nth_error (All.additional r) 0 = Some view /\
       calcShared currentApi 8 (sampleData 500)
         (Some (CVec [mkLock stakingTag 200 None])) = Some s /\
       view = withComponents s) /\
  (exists r,
     calcBalances currentApi
       (sampleAccount aliceId 1000, 8, (Some sampleSchedule, frozenSecondLocks))
     = Some r /\
     exists view,
       nth_error (All.additional r) 0 = Some view /\
       View.data view = None /\
       View.availableBalance view = 0).
Proof.
  split.
  - destruct (calcBalances currentApi
                (twoInstanceAccount, 8, (Some sampleSchedule, twoInstanceLocks)))
      as [r|] eqn:Hr; [|vm_compute in Hr; discriminate].
    exists r. split; [reflexivity|].
    destruct (calcBalances_additional currentApi twoInstanceAccount 8
                (Some sampleSchedule) twoInstanceLocks r Hr) as [_ Hviews].
    destruct (Hviews 0%nat (Some (CVec [mkLock stakingTag 200 None])) eq_refl)
      as (view & Hn & s & Hs & Hv).
    now exists view, s.
  - destruct (calcBalances currentApi
                (sampleAccount aliceId 1000, 8, (Some sampleSchedule, frozenSecondLocks)))
      as [r|] eqn:Hr; [|vm_compute in Hr; discriminate].
    exists r. split; [reflexivity|].
    destruct (calcBalances_additional currentApi (sampleAccount aliceId 1000) 8
                (Some sampleSchedule) frozenSecondLocks r Hr) as [_ Hviews].
    destruct (Hviews 0%nat (Some (CVec [mkLock stakingTag sentinel None])) eq_refl)
      as (view & Hn & a & _ & _ & Hav & Hd & _).
    exists view. split; [exact Hn|]. split; [exact Hd|].
    vm_compute in Hav. now injection Hav.
Defined.

(** X8.  When the account carries no balance components for a secondary
    lock list and that list holds no active sentinel lock, the derivation
    throws, whatever the registry does: the free balance of the missing
    components is read. *)
Theorem calcBalances_missing_components (api : ApiInterfaceRx)
    (data : DeriveBalancesAccount) (h : Z) (vesting : option VestingInfo)
    (allLocks : list (option Codec)) (i : nat) (l : option Codec) :
  nth_error allLocks (S i) = Some l ->
  nth_error (additional data) i = None ->
  ~ (exists lock, In lock (lockList l) /\ active h lock /\
                  amount lock = sentinel) ->
  calcBalances api (data, h, (vesting, allLocks)) = None.
Proof.
  intros Hi Hnone Hfree.
  destruct (calcBalances api (data, h, (vesting, allLocks))) as [r|] eqn:Hr;
    [|reflexivity].
  apply calcBalances_inv_additional in Hr.
  assert (Hi' : nth_error (tl allLocks) i = Some l)
    by (destruct allLocks; [discriminate|exact Hi]).
  destruct (mapIndexed_nth _ _ _ _ Hr i l Hi') as [view [_ Hf]].
  cbn [Nat.add] in Hf. rewrite Hnone in Hf.
  apply calcSharedAt_undefined in Hf. destruct Hf as (a & _ & Hfrozen & _).
  contradiction.
Qed.

Lemma calcBalances_missing_components_witness :
  calcBalances currentApi
    (sampleAccount aliceId 1000, 8, (Some sampleSchedule, twoInstanceLocks))
  = None.
Proof.
  apply (calcBalances_missing_components currentApi (sampleAccount aliceId 1000) 8
           (Some sampleSchedule) twoInstanceLocks 0
           (Some (CVec [mkLock stakingTag 200 None]))).
  - reflexivity.
  - reflexivity.
  - intros (lock & Hin & _ & Hamt). destruct Hin as [<-|[]].
    vm_compute in Hamt. discriminate.
Defined.

(** X9.  In every result the derivation returns: while not vesting,
    [vestedClaimable] and [vestingEndBlock] are zero; while vesting,
    [vestedClaimable] is [vestingLocked - (vestingTotal - vestedBalance)]
    whenever that amount is a [Balance]. *)
Theorem calcBalances_vestedClaimable (api : ApiInterfaceRx)
    (data : DeriveBalancesAccount) (h : Z) (vesting : option VestingInfo)
    (allLocks : list (option Codec)) (r : All.t) :
  registry_ok api ->
  calcBalances api (data, h, (vesting, allLocks)) = Some r ->
  (All.isVesting r = false ->
   All.vestedClaimable r = 0 /\ All.vestingEndBlock r = 0) /\
  (All.isVesting r = true ->
   in_range Balance
     (Shared.vestingLocked (All.shared r)
      - (All.vestingTotal r - All.vestedBalance r)) ->
   All.vestedClaimable r =
     Shared.vestingLocked (All.shared r)
     - (All.vestingTotal r - All.vestedBalance r)).
Proof.
  intros Hreg H. apply calcBalances_inv in H. cbn zeta in H.
  destruct H as (shared & _ & Hsh & _ & _ & Hvc & Hve & _ & Hvt & _).
  rewrite Hsh, Hvt. split.
  - intros Hno. rewrite Hno in Hvc, Hve.
    rewrite (Hreg Balance 0 (in_range_zero Balance)) in Hvc.
    rewrite (Hreg BlockNumber 0 (in_range_zero BlockNumber)) in Hve.
    split; congruence.
  - intros Hyes Hin. rewrite Hyes in Hvc. rewrite (Hreg Balance _ Hin) in Hvc.
    congruence.
Qed.

Lemma calcBalances_vestedClaimable_witness :
  exists r,
    calcBalances sampleApi (vestingInput (Some sampleSchedule) 8 100) = Some r /\
    All.isVesting r = true /\
    All.vestedClaimable r = 30.
Proof.
  destruct (calcBalances sampleApi (vestingInput (Some sampleSchedule) 8 100))
    as [r|] eqn:Hr; [|vm_compute in Hr; discriminate].
  exists r. split; [reflexivity|].
  destruct (calcBalances_vestedClaimable sampleApi (sampleAccount aliceId 1000) 8
              (Some sampleSchedule) [Some (CVec [mkLock vestingTag 100 None])] r
              registry_ok_sampleApi Hr) as [_ Hyes].
  vm_compute in Hr. injection Hr as <-. split; [reflexivity|].
  rewrite Hyes; [reflexivity|reflexivity|].
  apply in_rangeb_in_range. vm_compute. reflexivity.
Defined.

Lemma vestedSpec_bounds (v : VestingInfo) (h : Z) :
  0 <= locked v -> 0 <= perBlock v -> 0 <= vestedSpec v h <= locked v.
Proof.
  intros Ht Hp. pose proof (vestedNow_nonneg v h Hp). unfold vestedSpec. lia.
Qed.

Lemma vestedSpec_monotone (v : VestingInfo) (h h' : Z) :
  0 <= perBlock v -> h <= h' -> vestedSpec v h <= vestedSpec v h'.
Proof.
  intros Hp Hle. unfold vestedSpec, started.
  destruct (Z.ltb_spec (startingBlock v) h);
    destruct (Z.ltb_spec (startingBlock v) h'); try lia; nia.
Qed.

Lemma calcBalances_vested (api : ApiInterfaceRx) (data : DeriveBalancesAccount)
    (h : Z) (s : VestingInfo) (allLocks : list (option Codec)) (r : All.t) :
  registry_ok api ->
  in_range Balance (locked s) ->
  0 <= perBlock s ->
  calcBalances api (data, h, (Some s, allLocks)) = Some r ->
  All.vestedBalance r = vestedSpec s h.
Proof.
  intros Hreg Htot Hp H. apply calcBalances_inv in H. cbn zeta in H.
  destruct H as (shared & _ & _ & _ & Hvb & _). cbn [effectiveSchedule] in Hvb.
  exact (calcBalances_vestedBalance api s h _ Hreg Htot Hp Hvb).
Qed.

(** X10.  Under one schedule, [vestedBalance] lies between 0 and the
    total and never shrinks as the height grows, whatever the account and
    the locks of the two derivations are. *)
Theorem calcBalances_vested_monotone (api : ApiInterfaceRx)
    (data data' : DeriveBalancesAccount) (h h' : Z) (s : VestingInfo)
    (allLocks allLocks' : list (option Codec)) (r r' : All.t) :
  registry_ok api ->
  in_range Balance (locked s) ->
  0 <= perBlock s ->
  h <= h' ->
  calcBalances api (data, h, (Some s, allLocks)) = Some r ->
  calcBalances api (data', h', (Some s, allLocks')) = Some r' ->
  0 <= All.vestedBalance r <= All.vestedBalance r' /\
  All.vestedBalance r' <= locked s.
Proof.
  intros Hreg Htot Hp Hle Hr Hr'.
  rewrite (calcBalances_vested _ _ _ _ _ _ Hreg Htot Hp Hr).
  rewrite (calcBalances_vested _ _ _ _ _ _ Hreg Htot Hp Hr').
  destruct Htot as [Ht _].
  pose proof (vestedSpec_bounds s h Ht Hp).
  pose proof (vestedSpec_bounds s h' Ht Hp).
  pose proof (vestedSpec_monotone s h h' Hp Hle). lia.
Qed.

Lemma calcBalances_vested_monotone_witness :
  exists r r',
    calcBalances sampleApi (vestingInput (Some sampleSchedule) 8 100) = Some r /\
    calcBalances sampleApi (vestingInput (Some sampleSchedule) 15 100) = Some r' /\
    0 <= All.vestedBalance r <= All.vestedBalance r' /\
    All.vestedBalance r' <= 100.
Proof.
  destruct (calcBalances sampleApi (vestingInput (Some sampleSchedule) 8 100))
    as [r|] eqn:Hr; [|vm_compute in Hr; discriminate].
  destruct (calcBalances sampleApi (vestingInput (Some sampleSchedule) 15 100))
    as [r'|] eqn:Hr'; [|vm_compute in Hr'; discriminate].
  exists r, r'. split; [reflexivity|]. split; [reflexivity|].
  apply (calcBalances_vested_monotone sampleApi (sampleAccount aliceId 1000)
           (sampleAccount aliceId 1000) 8 15 sampleSchedule
           [Some (CVec [mkLock vestingTag 100 None])]
           [Some (CVec [mkLock vestingTag 100 None])] r r').
  - exact registry_ok_sampleApi.
  - apply in_rangeb_in_range. vm_compute. reflexivity.
  - vm_compute. discriminate.
  - vm_compute. discriminate.
  - exact Hr.
  - exact Hr'.
Defined.

(** X11.  How the reported end block relates to the vested amount, for a
    schedule with a positive rate: at height
    [startingBlock + total / perBlock] (the end block the derivation
    reports) the vested balance is the total less the remainder of the
    division, and at every later height it is the whole total. *)
Theorem calcBalances_vested_at_end (api : ApiInterfaceRx)
    (data : DeriveBalancesAccount) (h : Z) (s : VestingInfo)
    (allLocks : list (option Codec)) (r : All.t) :
  registry_ok api ->
  in_range Balance (locked s) ->
  0 < perBlock s ->
  calcBalances api (data, h, (Some s, allLocks)) = Some r ->
  (h = startingBlock s + locked s / perBlock s ->
   All.vestedBalance r = locked s - locked s mod perBlock s) /\
  (startingBlock s + locked s / perBlock s < h ->
   All.vestedBalance r = locked s).
Proof.
  intros Hreg Htot Hp Hr.
  rewrite (calcBalances_vested _ _ _ _ _ _ Hreg Htot (Z.lt_le_incl _ _ Hp) Hr).
  destruct Htot as [Ht _].
  pose proof (Z.div_pos (locked s) (perBlock s) Ht Hp) as Hq.
  pose proof (Z.div_mod (locked s) (perBlock s) ltac:(lia)) as Hdm.
  pose proof (Z.mod_pos_bound (locked s) (perBlock s) Hp) as Hm.
  unfold vestedSpec, started. split.
  - intros ->.
    destruct (Z.ltb_spec (startingBlock s)
                (startingBlock s + locked s / perBlock s)) as [Hlt|Hge].
    + replace (startingBlock s + locked s / perBlock s - startingBlock s)
        with (locked s / perBlock s) by lia. lia.
    + assert (E : locked s / perBlock s = 0) by lia. rewrite E in Hdm. lia.
  - intros Hlt.
    destruct (Z.ltb_spec (startingBlock s) h) as [_|Hge]; [|lia].
    assert (perBlock s * (locked s / perBlock s + 1) <= perBlock s * (h - startingBlock s))
      by (apply Z.mul_le_mono_nonneg_l; lia).
    lia.
Qed.

Lemma calcBalances_vested_at_end_witness :
  exists r r',
    calcBalances sampleApi (vestingInput (Some unevenSchedule) 14 95) = Some r /\
    calcBalances sampleApi (vestingInput (Some unevenSchedule) 15 95) = Some r' /\
    All.vestingEndBlock r = 14 /\
    All.vestedBalance r = 90 /\
    All.vestedBalance r' = 95.
Proof.
  destruct (calcBalances sampleApi (vestingInput (Some unevenSchedule) 14 95))
    as [r|] eqn:Hr; [|vm_compute in Hr; discriminate].
  destruct (calcBalances sampleApi (vestingInput (Some unevenSchedule) 15 95))
    as [r'|] eqn:Hr'; [|vm_compute in Hr'; discriminate].
  exists r, r'. split; [reflexivity|]. split; [reflexivity|].
  assert (Hin : in_range Balance (locked unevenSchedule))
    by (apply in_rangeb_in_range; vm_compute; reflexivity).
  assert (Hp : 0 < perBlock unevenSchedule) by (vm_compute; reflexivity).
  destruct (calcBalances_vested_at_end sampleApi (sampleAccount aliceId 1000) 14
              unevenSchedule [Some (CVec [mkLock vestingTag 95 None])] r
              registry_ok_sampleApi Hin Hp Hr) as [Hat _].
  destruct (calcBalances_vested_at_end sampleApi (sampleAccount aliceId 1000) 15
              unevenSchedule [Some (CVec [mkLock vestingTag 95 None])] r'
              registry_ok_sampleApi Hin Hp Hr') as [_ Hafter].
  split; [vm_compute in Hr; injection Hr as <-; reflexivity|].
  split.
  - rewrite Hat; reflexivity.
  - rewrite Hafter; [reflexivity|]. vm_compute. reflexivity.
Defined.

(** X12.  A schedule whose rate is zero makes the derivation throw as
    soon as vesting is in progress (height above the starting block and a
    non-zero amount under active vesting locks): the end block divides by
    the rate. *)
Theorem calcBalances_zero_rate_throws (api : ApiInterfaceRx)
    (data : DeriveBalancesAccount) (h : Z) (s : VestingInfo)
    (allLocks : list (option Codec)) :
  registry_ok api ->
  in_range Balance (freeBalance (accountData data)) ->
  locks_ok h (lockList (at_index allLocks 0)) ->
  perBlock s = 0 ->
  startingBlock s < h ->
  vestingSum h (lockList (at_index allLocks 0)) <> 0 ->
  calcBalances api (data, h, (Some s, allLocks)) = None.
Proof.
  intros Hreg Hfree Hlocks Hp Hst Hvl. unfold calcBalances.
  rewrite (calcShared_spec api h _ _ Hreg Hfree Hlocks). cbn [bind].
  cbn [sharedSpec Shared.vestingLocked]. rewrite Hp.
  unfold BN.gt, BN.mul, BN.sub, BN.isZero.
  assert (Hgt : (h >? startingBlock s) = true)
    by (rewrite Z.gtb_ltb; now apply Z.ltb_lt).
  rewrite Hgt. cbn [andb].
  destruct (Z.eqb_spec (vestingSum h (lockList (at_index allLocks 0))) 0)
    as [E|_]; [contradiction|]. cbn [negb].
  match goal with
  | |- bind ?c _ = None => destruct c; [|reflexivity]
  end. cbn [bind].
  destruct (mapIndexed _ (tl allLocks) 0); [|reflexivity]. cbn [bind].
  destruct (createType api Balance _); reflexivity.
Qed.

Lemma calcBalances_zero_rate_throws_witness :
  calcBalances sampleApi (vestingInput (Some zeroRateSchedule) 8 100) = None.
Proof.
  apply (calcBalances_zero_rate_throws sampleApi (sampleAccount aliceId 1000) 8
           zeroRateSchedule [Some (CVec [mkLock vestingTag 100 None])]).
  - exact registry_ok_sampleApi.
  - apply in_rangeb_in_range. vm_compute. reflexivity.
  - apply locks_okb_ok. vm_compute. reflexivity.
  - reflexivity.
  - reflexivity.
  - vm_compute. discriminate.
Defined.

(** ** The adapters *)



Lemma resolvedQueries_calls (api : ApiInterfaceRx) (who : AccountId)
    (instances : list string) :
  map (fun c => (c, who)) (filterNonNullable (map (lockCall api) instances))
  = resolvedQueries api who instances.
Proof.
  unfold resolvedQueries, lockCall.
  induction instances as [|m rest IH]; [reflexivity|].
  cbn [map flat_map].
  destruct (derive_customLocks api m); [|destruct (query_locks api m)];
    cbn [filterNonNullable map app]; now rewrite IH.
Qed.

Lemma instanceLocks_lockCall (api : ApiInterfaceRx) (who : AccountId) (m : string) :
  match lockCall api m with
  | Some q => Some (readStorage (chain api) (q, who))
  | None => Some (CVec [])
  end = Some (CVec (instanceLocks api who m)).
Proof.
  unfold lockCall, instanceLocks.
  destruct (derive_customLocks api m); [|destruct (query_locks api m)];
    reflexivity.
Qed.

(** X14.  On the current shape the adapter opens at most one batch: the
    vesting query, when the chain has one, followed by the lock queries of
    the instances that resolve, in instance order, and no query at all
    when there is none of either.  It returns the chain's schedule, or none
    without a vesting query, and one lock list per configured instance. *)
Theorem queryCurrent_result (api : ApiInterfaceRx) (who : AccountId)
    (instances : list string) :
  queryCurrent api who (Some instances)
  = (currentBatch api who instances, Some (currentResult api who instances)).
Proof.
  destruct (queryCurrent_spec api who instances) as [trace E].
  assert (Ht : fst (queryCurrent api who (Some instances))
               = currentBatch api who instances).
  { unfold queryCurrent, currentBatch. rewrite resolvedQueries_calls.
    destruct (query_vesting_vesting api); [reflexivity|].
    destruct (resolvedQueries api who instances); reflexivity. }
  rewrite E in Ht. cbn [fst] in Ht. subst trace. rewrite E.
  unfold currentResult.
  rewrite (map_ext _ _ (instanceLocks_lockCall api who)). reflexivity.
Qed.

(** The three-instance chain: one batch holding the one resolved query. *)
Example queryCurrent_result_sample :
  currentBatch sampleApi aliceId ["balances"; "tokens"; "assets"]%string
  = [QueryMulti [(queryLocks "tokens", aliceId)]].
Proof. reflexivity. Qed.

Lemma resolvedQueries_In (api : ApiInterfaceRx) (who : AccountId)
    (instances : list string) (q : StorageEntry) :
  In (q, who) (resolvedQueries api who instances) ->
  exists m, In m instances /\
    ((derive_customLocks api m = true /\ q = customLocks m) \/
     (derive_customLocks api m = false /\ query_locks api m = true /\
      q = queryLocks m)).
Proof.
  unfold resolvedQueries. rewrite in_flat_map. intros [m [Hm Hq]]. exists m.
  split; [exact Hm|].
  destruct (derive_customLocks api m); [|destruct (query_locks api m)].
  - left. destruct Hq as [Hq|[]]. injection Hq as <-. easy.
  - right. destruct Hq as [Hq|[]]. injection Hq as <-. easy.
  - destruct Hq.
Qed.

(** X15.  A custom lock query takes precedence: for an instance that has
    one, the lock list at the instance's position is the one the custom
    query reads, and the module's own lock query for that instance is in
    no batch. *)
Theorem queryCurrent_custom_first (api : ApiInterfaceRx) (who : AccountId)
    (instances : list string) (i : nat) (m : string) :
  derive_customLocks api m = true ->
  nth_error instances i = Some m ->
  exists trace vesting locks,
    queryCurrent api who (Some instances) = (trace, Some (vesting, locks)) /\
    nth_error locks i = Some (Some (CVec (locksOf (chain api) (customLocks m) who))) /\
    forall keys, In (QueryMulti keys) trace -> ~ In (queryLocks m, who) keys.
Proof.
  intros Hc Hi. rewrite queryCurrent_result. unfold currentResult.
  eexists _, _, _. split; [reflexivity|]. split.
  - rewrite nth_error_map, Hi. cbn [option_map]. unfold instanceLocks.
    now rewrite Hc.
  - intros keys Hk Hin.
    assert (Hres : In (queryLocks m, who) (resolvedQueries api who instances)).
    { unfold currentBatch in Hk. destruct (query_vesting_vesting api).
      - destruct Hk as [Hk|[]]. injection Hk as <-.
        destruct Hin as [Hin|Hin]; [discriminate|exact Hin].
      - destruct (resolvedQueries api who instances) as [|q qs]; [destruct Hk|].
        destruct Hk as [Hk|[]]. injection Hk as <-. exact Hin. }
    apply resolvedQueries_In in Hres.
    destruct Hres as [m' [_ [[_ Hq]|[Hno [_ Hq]]]]]; [discriminate|].
    injection Hq as <-. congruence.
Qed.

Lemma queryCurrent_custom_first_witness :
  exists trace vesting locks,
    queryCurrent currentApi aliceId (Some ["balances"; "tokens"]%string)
    = (trace, Some (vesting, locks)) /\
    nth_error locks 1
    = Some (Some (CVec (locksOf currentChain (customLocks "tokens") aliceId))) /\
    forall keys, In (QueryMulti keys) trace -> ~ In (queryLocks "tokens", aliceId) keys.
Proof.
  apply (queryCurrent_custom_first currentApi aliceId
           ["balances"; "tokens"]%string 1 "tokens"); reflexivity.
Defined.

(** ** The entry point on an existing account *)


Lemma queryCurrent_default (api : ApiInterfaceRx) (who : AccountId)
    (balanceInstances : option (list string)) :
  queryCurrent api who balanceInstances
  = queryCurrent api who
      (Some (match balanceInstances with
             | Some l => l
             | None => ["balances"%string]
             end)).
Proof. destruct balanceInstances; reflexivity. Qed.

(** For an account with a non-empty id [all] subscribes to the account
    feed, the best-number feed and one adapter, in this order, and derives
    from what the three deliver. *)
Lemma all_existing (instanceId : string) (api : ApiInterfaceRx)
    (address : string) :
  isEmpty (accountId (derive_balances_account api address)) = false ->
  let account := derive_balances_account api address in
  let adapter :=
    if query_system_account api || query_balances_account api
    then queryCurrent api (accountId account) (Some (instancesOf api))
    else queryOld api (accountId account) in
  all instanceId api address
  = (AccountFeed address :: BestNumberFeed :: fst adapter,
     rb <- snd adapter ;;
     calcBalances api (account, derive_chain_bestNumber api, rb)).
Proof.
  intros Hne account adapter. subst account adapter.
  unfold all, switchMap, derive_balances_account_feed.
  cbn [fst snd]. rewrite Hne. cbn [negb].
  rewrite (queryCurrent_default api).
  fold (instancesOf api).
  unfold pipe_map, combineLatest, of_, derive_chain_bestNumber_feed.
  cbn [fst snd app bind].
  match goal with
  | |- context [snd ?a] => destruct (snd a); reflexivity
  end.
Qed.

(** X16.  On a chain of the current shape, for an account with a
    non-empty id, [all] subscribes to the account feed, the best-number
    feed and the adapter's batch, in this order, and its outcome is the
    derivation applied to the account, the best number and the adapter's
    normalized result; a result it emits has one derived view per
    configured instance, the primary one and [additional]. *)
Theorem all_current_shape (instanceId : string) (api : ApiInterfaceRx)
    (address : string) :
  isEmpty (accountId (derive_balances_account api address)) = false ->
  query_system_account api || query_balances_account api = true ->
  let account := derive_balances_account api address in
  all instanceId api address
  = (AccountFeed address :: BestNumberFeed ::
       currentBatch api (accountId account) (instancesOf api),
     calcBalances api
       (account, derive_chain_bestNumber api,
        currentResult api (accountId account) (instancesOf api))) /\
  forall r, snd (all instanceId api address) = Some r ->
    List.length (All.additional r) = (List.length (instancesOf api) - 1)%nat.
Proof.
  intros Hne Hcur account.
  pose proof (all_existing instanceId api address Hne) as E. cbn zeta in E.
  fold account in E. rewrite Hcur, queryCurrent_result in E. cbn [fst snd bind] in E.
  split; [exact E|].
  intros r Hr. rewrite E in Hr. cbn [snd] in Hr. unfold currentResult in Hr.
  pose proof (calcBalances_additional_length _ _ _ _ _ _ Hr) as Hlen.
  now rewrite Hlen, length_map.
Qed.

Lemma all_current_shape_witness :
  exists r,
    all "scope" currentApi "5Alice"
    = ([AccountFeed "5Alice"%string; BestNumberFeed;
        QueryMulti [(queryVesting, aliceId); (queryLocks "balances", aliceId);
                    (customLocks "tokens", aliceId)]],
       Some r) /\
    List.length (All.additional r) = 1%nat.
Proof.
  destruct (all_current_shape "scope" currentApi "5Alice") as [E Hlen];
    [reflexivity|reflexivity|].
  destruct (snd (all "scope" currentApi "5Alice")) as [r|] eqn:Hr;
    [|vm_compute in Hr; discriminate].
  exists r. split.
  - rewrite E in Hr |- *. cbn [snd] in Hr. rewrite Hr. reflexivity.
  - exact (Hlen r eq_refl).
Defined.



(** ** Fixed-length vectors *)

Lemma pushWhileShort_pads {T : Type} (d : T) (allocLength turns : nat)
    (values : list T) :
  (allocLength - List.length values <= turns)%nat ->
  pushWhileShort d allocLength values turns
  = values ++ repeat d (allocLength - List.length values).
Proof.
  revert values. induction turns as [|turns IH]; intros values Hturns.
  - cbn [pushWhileShort].
    replace (allocLength - List.length values)%nat with 0%nat by lia.
    now rewrite app_nil_r.
  - cbn [pushWhileShort].
    destruct (Nat.ltb_spec (List.length values) allocLength) as [Hlt|Hge].
    + rewrite IH by (rewrite length_app; cbn [List.length]; lia).
      rewrite length_app. cbn [List.length]. rewrite <- app_assoc. f_equal.
      replace (allocLength - List.length values)%nat
        with (S (allocLength - (List.length values + 1)))%nat by lia.
      reflexivity.
    + replace (allocLength - List.length values)%nat with 0%nat by lia.
      now rewrite app_nil_r.
Qed.

(** X18.  When the decoder delivers no more than [allocLength] items,
    [decodeVecFixed] returns them followed by default items up to exactly
    [allocLength] entries. *)
Theorem decodeVecFixed_pads {T V : Type} (env : VecEnv T V) (allocLength : nat)
    (value : V) (decoded : list T) :
  decodeVec env
    (if isU8a env value || isHex env value
     then u8aConcat2 env (compactToU8a env allocLength) value
     else value) = Some decoded ->
  (List.length decoded <= allocLength)%nat ->
  exists values,
    decodeVecFixed env allocLength value = Some values /\
    values = decoded ++ repeat (newType env) (allocLength - List.length decoded) /\
    List.length values = allocLength.
Proof.
  intros Hdec Hlen. unfold decodeVecFixed. rewrite Hdec. cbn [bind].
  rewrite pushWhileShort_pads by lia.
  assert (E : List.length
                (decoded ++ repeat (newType env) (allocLength - List.length decoded))
              = allocLength)
    by (rewrite length_app, repeat_length; lia).
  rewrite E, Nat.eqb_refl. eexists. split; [reflexivity|]. now split.
Qed.

Lemma decodeVecFixed_pads_witness :
  exists values,
    decodeVecFixed byteVecEnv 4 [x01; x02] = Some values /\
    values = [x01; x02] ++ repeat x00 2 /\
    List.length values = 4%nat.
Proof.
  apply (decodeVecFixed_pads byteVecEnv 4 [x01; x02] [x01; x02]).
  - reflexivity.
  - cbn. lia.
Defined.

(** X19.  When the decoder delivers more than [allocLength] items,
    [decodeVecFixed] throws: nothing is truncated. *)
Theorem decodeVecFixed_too_long {T V : Type} (env : VecEnv T V)
    (allocLength : nat) (value : V) (decoded : list T) :
  decodeVec env
    (if isU8a env value || isHex env value
     then u8aConcat2 env (compactToU8a env allocLength) value
     else value) = Some decoded ->
  (allocLength < List.length decoded)%nat ->
  decodeVecFixed env allocLength value = None.
Proof.
  intros Hdec Hlen. unfold decodeVecFixed. rewrite Hdec. cbn [bind].
  rewrite pushWhileShort_pads by lia.
  replace (allocLength - List.length decoded)%nat with 0%nat by lia.
  cbn [repeat]. rewrite app_nil_r.
  destruct (Nat.eqb_spec (List.length decoded) allocLength); [lia|reflexivity].
Qed.

Lemma decodeVecFixed_too_long_witness :
  decodeVecFixed byteVecEnv 1 [x01; x02] = None.
Proof.
  apply (decodeVecFixed_too_long byteVecEnv 1 [x01; x02] [x01; x02]).
  - reflexivity.
  - cbn. lia.
Defined.

(** X20.  Whatever [decodeVecFixed] returns has exactly [allocLength]
    entries, and it is what the decoder delivered followed by default
    items only: no decoded item is dropped or changed. *)
Theorem decodeVecFixed_returned {T V : Type} (env : VecEnv T V)
    (allocLength : nat) (value : V) (values : list T) :
  decodeVecFixed env allocLength value = Some values ->
  List.length values = allocLength /\
  exists decoded,
    decodeVec env
      (if isU8a env value || isHex env value
       then u8aConcat2 env (compactToU8a env allocLength) value
       else value) = Some decoded /\
    (List.length decoded <= allocLength)%nat /\
    values = decoded ++ repeat (newType env) (allocLength - List.length decoded).
Proof.
  unfold decodeVecFixed. intros H. apply bind_Some in H as [decoded [Hdec H]].
  destruct (Nat.eqb_spec
              (List.length (pushWhileShort (newType env) allocLength decoded allocLength))
              allocLength) as [E|_]; [|discriminate].
  injection H as <-. split; [exact E|]. exists decoded.
  rewrite pushWhileShort_pads in E |- * by lia.
  split; [exact Hdec|]. split; [|reflexivity].
  rewrite length_app, repeat_length in E. lia.
Qed.

Lemma decodeVecFixed_returned_witness :
  List.length [x01; x02; x00; x00] = 4%nat /\
  exists decoded,
    decodeVec byteVecEnv [x01; x02] = Some decoded /\
    (List.length decoded <= 4)%nat /\
    [x01; x02; x00; x00] = decoded ++ repeat x00 (4 - List.length decoded).
Proof.
  apply (decodeVecFixed_returned byteVecEnv 4 [x01; x02] [x01; x02; x00; x00]).
  reflexivity.
Defined.

Lemma fold_left_encodedLength {T V : Type} (env : VecEnv T V) (this : list T)
    (acc : nat) :
  (forall x, In x this -> entryEncodedLength env x = List.length (entryToU8a env x)) ->
  fold_left (fun total entry => (total + entryEncodedLength env entry)%nat) this acc
  = (acc + List.length (List.concat (map (entryToU8a env) this)))%nat.
Proof.
  revert acc. induction this as [|x this IH]; intros acc H; cbn [fold_left map List.concat].
  - cbn. lia.
  - rewrite IH by (intros y Hy; apply H; now right).
    rewrite (H x (or_introl eq_refl)), length_app. lia.
Qed.

(** X21.  When every item's [encodedLength] is the length of its own
    encoding, the vector's [encodedLength] is the length of what [toU8a]
    produces: the items' encodings back to back, without a length
    prefix. *)
Theorem VecFixed_encodedLength_toU8a {T V : Type} (env : VecEnv T V)
    (this : list T) :
  (forall x, In x this -> entryEncodedLength env x = List.length (entryToU8a env x)) ->
  VecFixed_encodedLength env this = List.length (VecFixed_toU8a env this) /\
  VecFixed_toU8a env this = List.concat (map (entryToU8a env) this).
Proof.
  intros H. unfold VecFixed_encodedLength, VecFixed_toU8a, u8aConcat.
  rewrite (fold_left_encodedLength env this 0 H). cbn [Nat.add].
  destruct this as [|x this]; [split; reflexivity|].
  cbn [map List.length Nat.ltb Nat.leb]. split; reflexivity.
Qed.

Lemma VecFixed_encodedLength_toU8a_witness :
  VecFixed_encodedLength byteVecEnv [x01; x02; x03]
  = List.length (VecFixed_toU8a byteVecEnv [x01; x02; x03]) /\
  VecFixed_toU8a byteVecEnv [x01; x02; x03]
  = List.concat (map (entryToU8a byteVecEnv) [x01; x02; x03]).
Proof.
  apply (VecFixed_encodedLength_toU8a byteVecEnv [x01; x02; x03]).
  intros x _. reflexivity.
Defined.

(** ** The claimable amount once vesting has run out *)

(** X22.  Strictly after the end block the derivation reports, nothing of
    the schedule is left to vest: [vestedClaimable] is the whole
    [vestingLocked] amount of the primary instance. *)
Theorem calcBalances_claimable_after_end (api : ApiInterfaceRx)
    (data : DeriveBalancesAccount) (h : Z) (s : VestingInfo)
    (allLocks : list (option Codec)) (r : All.t) :
  registry_ok api ->
  in_range Balance (freeBalance (accountData data)) ->
  locks_ok h (lockList (at_index allLocks 0)) ->
  in_range Balance (locked s) ->
  0 < perBlock s ->
  startingBlock s + locked s / perBlock s < h ->
  calcBalances api (data, h, (Some s, allLocks)) = Some r ->
  All.vestedBalance r = locked s /\
  All.vestedClaimable r = Shared.vestingLocked (All.shared r) /\
  Shared.vestingLocked (All.shared r)
  = vestingSum h (lockList (at_index allLocks 0)).
Proof.
  intros Hreg Hfree Hlocks Htot Hp Hend Hr.
  assert (Hvb : All.vestedBalance r = locked s).
  { pose proof (calcBalances_vested _ _ _ _ _ _ Hreg Htot (Z.lt_le_incl _ _ Hp) Hr)
      as Hv. rewrite Hv. unfold vestedSpec, started.
    destruct Htot as [Ht _].
    pose proof (Z.div_pos (locked s) (perBlock s) Ht Hp) as Hq.
    pose proof (Z.div_mod (locked s) (perBlock s) ltac:(lia)) as Hdm.
    pose proof (Z.mod_pos_bound (locked s) (perBlock s) Hp) as Hm.
    destruct (Z.ltb_spec (startingBlock s) h) as [_|Hge]; [|lia].
    assert (perBlock s * (locked s / perBlock s + 1)
            <= perBlock s * (h - startingBlock s))
      by (apply Z.mul_le_mono_nonneg_l; lia).
    lia. }
  split; [exact Hvb|].
  apply calcBalances_inv in Hr. cbn zeta in Hr.
  destruct Hr as (shared & Hs & Hsh & Hiv & _ & Hvc & _).
  rewrite (calcShared_spec api h _ _ Hreg Hfree Hlocks) in Hs.
  injection Hs as <-. rewrite Hsh in *.
  cbn [sharedSpec Shared.vestingLocked] in *. cbn [effectiveSchedule] in *.
  split; [|reflexivity].
  rewrite Hvb, Z.sub_diag, Z.sub_0_r in Hvc. destruct Hlocks as [_ Hsum].
  destruct (All.isVesting r) eqn:Eiv.
  - rewrite (Hreg Balance _ Hsum) in Hvc. congruence.
  - rewrite (Hreg Balance 0 (in_range_zero Balance)) in Hvc.
    symmetry in Hiv. apply andb_false_iff in Hiv. destruct Hiv as [Hst|Hz].
    + unfold started in Hst. apply Z.ltb_ge in Hst.
      pose proof (Z.div_pos (locked s) (perBlock s) (proj1 Htot) Hp). lia.
    + apply negb_false_iff, Z.eqb_eq in Hz. congruence.
Qed.

Lemma calcBalances_claimable_after_end_witness :
  exists r,
    calcBalances sampleApi (vestingInput (Some unevenSchedule) 15 95) = Some r /\
    All.vestedBalance r = 95 /\
    All.vestedClaimable r = 95.
Proof.
  destruct (calcBalances sampleApi (vestingInput (Some unevenSchedule) 15 95))
    as [r|] eqn:Hr; [|vm_compute in Hr; discriminate].
  exists r. split; [reflexivity|].
  destruct (calcBalances_claimable_after_end sampleApi (sampleAccount aliceId 1000)
              15 unevenSchedule [Some (CVec [mkLock vestingTag 95 None])] r)
    as (Hvb & Hvc & Hvl).
  - exact registry_ok_sampleApi.
  - apply in_rangeb_in_range. vm_compute. reflexivity.
  - apply locks_okb_ok. vm_compute. reflexivity.
  - apply in_rangeb_in_range. vm_compute. reflexivity.
  - vm_compute. reflexivity.
  - vm_compute. reflexivity.
  - exact Hr.
  - split; [exact Hvb|]. rewrite Hvc, Hvl. reflexivity.
Defined.
